(** * pfctoolkit.mapping: chunk contributions and their consolidation

    A shallow embedding of [src/pfctoolkit/mapping.py] together with the
    properties of its numeric kernels, of [process_chunk] and of
    [consolidate].

    Numbers are the elements of an arbitrary commutative ring with decidable
    equality (exact arithmetic; rounding of floating point is not modelled).
    NumPy arrays carry their shape; arrays stored in dictionaries are
    references into a store, because [+=] on an array updates it in place.
    The kernels are compiled by numba when they are called: a kernel whose
    body numba cannot type raises at every call. *)

From Stdlib Require Import ZArith Ring.
From stdpp Require Import base option list strings gmap fin_maps.

(** ** Exceptions and results *)

Inductive error :=
  | TypeError (msg : string)
  | ValueError
  | IndexError
  | KeyError (key : string)
  | OSError
  | TypingError.

Inductive result (A : Type) :=
  | Ok (a : A)
  | Err (e : error).
Arguments Ok {A} a.
Arguments Err {A} e.

#[global] Instance result_ret : MRet result := fun A a => Ok a.
#[global] Instance result_bind : MBind result := fun A B f m =>
  match m with
  | Ok a => f a
  | Err e => Err e
  end.

Definition of_option {A} (e : error) (o : option A) : result A :=
  match o with
  | Some a => Ok a
  | None => Err e
  end.

(** ** Exact numbers *)

Class Exact := {
  num : Type;
  num_eq_dec : EqDecision num;
  num0 : num;
  num1 : num;
  num_add : num -> num -> num;
  num_mul : num -> num -> num;
  num_sub : num -> num -> num;
  num_opp : num -> num;
  num_ring : ring_theory num0 num1 num_add num_mul num_sub num_opp (@eq num)
}.
#[global] Existing Instance num_eq_dec.

Declare Scope num_scope.
Delimit Scope num_scope with num.
Bind Scope num_scope with num.
Notation "x + y" := (num_add x y) : num_scope.
Notation "x * y" := (num_mul x y) : num_scope.

#[global] Instance Z_exact : Exact := {|
  num := Z;
  num_eq_dec := Z.eq_dec;
  num0 := 0%Z;
  num1 := 1%Z;
  num_add := Z.add;
  num_mul := Z.mul;
  num_sub := Z.sub;
  num_opp := Z.opp;
  num_ring := Zth
|}.

(** ** The NumPy operations the module uses *)

(** A two-dimensional array: its [shape] and its rows.  One-dimensional
    arrays are lists. *)
Record ndarray2 (A : Type) := Array2 {
  shape0 : nat;
  shape1 : nat;
  rows : list (list A)
}.
Arguments Array2 {A} shape0 shape1 rows.
Arguments shape0 {A} _.
Arguments shape1 {A} _.
Arguments rows {A} _.

(** The invariant of every array NumPy hands out. *)
Definition wf2 {A} (a : ndarray2 A) : Prop :=
  length (rows a) = shape0 a /\ Forall (fun r => length r = shape1 a) (rows a).

(** [np.array(l)] of a list of one-dimensional arrays.  An empty list gives
    a one-dimensional array, which none of the two-dimensional operations
    below accepts, and rows of unequal length give no numeric matrix: both
    are failures here. *)
Definition np_array2 {A} (l : list (list A)) : result (ndarray2 A) :=
  match l with
  | [] => Err ValueError
  | r :: _ =>
      if forallb (fun r' => length r' =? length r) l
      then Ok (Array2 (length l) (length r) l)
      else Err ValueError
  end.

(** [a[i]] and [a[i,:]] *)
Definition getitem {A} (a : ndarray2 A) (i : nat) : result (list A) :=
  of_option IndexError (rows a !! i).

(** The entries of [v] at which the mask holds. *)
Fixpoint compress {A} (mask : list bool) (v : list A) : list A :=
  match mask, v with
  | b :: mask', x :: v' => if b then x :: compress mask' v' else compress mask' v'
  | _, _ => []
  end.

Fixpoint count_true (mask : list bool) : nat :=
  match mask with
  | [] => 0
  | b :: mask' => if b then S (count_true mask') else count_true mask'
  end.

(** [v[mask]] *)
Definition getitem_mask {A} (v : list A) (mask : list bool) : result (list A) :=
  if length mask =? length v then Ok (compress mask v) else Err IndexError.

(** [a[mask,:]] *)
Definition getitem_mask_rows {A} (a : ndarray2 A) (mask : list bool)
  : result (ndarray2 A) :=
  if length mask =? shape0 a
  then Ok (Array2 (count_true mask) (shape1 a) (compress mask (rows a)))
  else Err IndexError.

(** [a[:,mask]] *)
Definition getitem_mask_cols {A} (a : ndarray2 A) (mask : list bool)
  : result (ndarray2 A) :=
  if length mask =? shape1 a
  then Ok (Array2 (shape0 a) (count_true mask) (map (compress mask) (rows a)))
  else Err IndexError.

(** [np.reshape(v, (-1,1))] *)
Definition reshape_col {A} (v : list A) : ndarray2 A :=
  Array2 (length v) 1 (map (fun x => [x]) v).

(** A one-dimensional operand of a binary operation with a two-dimensional
    one is read as a single row. *)
Definition as_row {A} (v : list A) : ndarray2 A :=
  Array2 1 (length v) [v].

(** Broadcasting of one dimension. *)
Definition broadcast_dim (n m : nat) : result nat :=
  if n =? m then Ok n
  else if n =? 1 then Ok m
  else if m =? 1 then Ok n
  else Err ValueError.

(** A dimension of extent one is repeated along the broadcast extent. *)
Definition stretch {A} (n : nat) (l : list A) : list A :=
  match l with
  | [x] => replicate n x
  | _ => l
  end.

Section numpy.
Context {exact : Exact}.

Definition nonzero (x : num) : bool := bool_decide (x <> num0).

(** [np.multiply(a, b)] *)
Definition np_multiply (a b : ndarray2 num) : result (ndarray2 num) :=
  n ← broadcast_dim (shape0 a) (shape0 b);
  m ← broadcast_dim (shape1 a) (shape1 b);
  Ok (Array2 n m
        (zip_with (fun ra rb => zip_with num_mul (stretch m ra) (stretch m rb))
                  (stretch n (rows a)) (stretch n (rows b)))).

(** Sum of a one-dimensional array. *)
Definition vsum (v : list num) : num := foldr num_add num0 v.

(** [np.sum(a)] *)
Definition np_sum (a : ndarray2 num) : num := vsum (map vsum (rows a)).

(** [np.sum(a, axis=1)] *)
Definition np_sum_axis1 (a : ndarray2 num) : list num := map vsum (rows a).

Definition vadd (u v : list num) : list num := zip_with num_add u v.
Definition vscale (x : num) (v : list num) : list num := map (num_mul x) v.

(** One row of a matrix product: the combination of the rows of the right
    operand with the entries of the left row as coefficients. *)
Fixpoint combine_rows (n : nat) (coeffs : list num) (rs : list (list num))
  : list num :=
  match coeffs, rs with
  | c :: coeffs', r :: rs' => vadd (vscale c r) (combine_rows n coeffs' rs')
  | _, _ => replicate n num0
  end.

(** [np.matmul(a, b)] *)
Definition np_matmul (a b : ndarray2 num) : result (ndarray2 num) :=
  if shape1 a =? shape0 b
  then Ok (Array2 (shape0 a) (shape1 b)
             (map (fun ra => combine_rows (shape1 b) ra (rows b)) (rows a)))
  else Err ValueError.

(** ** numba

    The NumPy functions the kernels call by name. *)
Inductive np_function :=
  | NpSum
  | NpMatmul
  | NpMultiply
  | NpReshape.

(** The functions that numba types in nopython mode.  [np.matmul] is not
    one of them: numba types the product as [np.dot] and as the operator
    [@] only. *)
Definition nopython_types (f : np_function) : bool :=
  match f with
  | NpMatmul => false
  | _ => true
  end.

(** [@jit(nopython=True)].  The function is compiled when it is called, for
    the types of its arguments.  If its body calls a function that nopython
    mode does not type, the compilation fails and every call raises
    [TypingError]: the body never runs. *)
Definition jit_nopython {A} (calls : list np_function) (body : result A)
  : result A :=
  if forallb nopython_types calls then body else Err TypingError.

(** ** The numeric kernels of mapping.py

    All five are decorated with [@jit(nopython=True)].
    [compute_network_weights], [compute_numerator], [compute_chunk_masks]
    and [compute_denominator] call [np.sum], [np.multiply] and [np.reshape]
    and index with boolean masks, which nopython mode types: the decorator
    leaves what they return as it is, and they are written without it. *)

Definition compute_network_weights (std_chunk_masks : ndarray2 num)
  : list num :=
  let network_weights := np_sum_axis1 std_chunk_masks in
  network_weights.

Definition compute_network_maps (std_chunk_masks chunk_data : ndarray2 num)
  : result (ndarray2 num) :=
  jit_nopython [NpMatmul]
    (network_maps ← np_matmul std_chunk_masks chunk_data;
     Ok network_maps).

Definition compute_denominator
    (brain_weights chunk_weights : ndarray2 num)
    (brain_masks chunk_masks : ndarray2 bool)
    (chunk_data : ndarray2 num) (i : nat) : result num :=
  cw ← getitem chunk_weights i;
  cm ← getitem chunk_masks i;
  cw_sel ← getitem_mask cw cm;
  cm' ← getitem chunk_masks i;
  data_sel ← getitem_mask_rows chunk_data cm';
  chunk_masked ← np_multiply (reshape_col cw_sel) data_sel;
  bw ← getitem brain_weights i;
  bm ← getitem brain_masks i;
  bw_sel ← getitem_mask bw bm;
  bm' ← getitem brain_masks i;
  masked_sel ← getitem_mask_cols chunk_masked bm';
  brain_masked ← np_multiply (as_row bw_sel) masked_sel;
  let denominator := np_sum brain_masked in
  Ok denominator.

Definition compute_numerator (norm_chunk_masks : ndarray2 num) : list num :=
  let numerator := np_sum_axis1 norm_chunk_masks in
  numerator.

Definition compute_chunk_masks (chunk_weights : ndarray2 num)
    (norm_weight std_weight : list num)
  : result (ndarray2 num * ndarray2 num) :=
  norm_weighted_chunk_masks ← np_multiply chunk_weights (as_row norm_weight);
  std_weighted_chunk_masks ← np_multiply chunk_weights (as_row std_weight);
  Ok (norm_weighted_chunk_masks, std_weighted_chunk_masks).

End numpy.

(** ** Python dictionaries

    A dictionary keyed by ROI path keeps its keys in insertion order, the
    order in which [consolidate] walks them. *)

Abbreviation pydict V := (list (string * V)).

Fixpoint dict_get {V} (k : string) (d : pydict V) : option V :=
  match d with
  | [] => None
  | (k', v) :: d' => if decide (k = k') then Some v else dict_get k d'
  end.

(** [d[k] = v]: an existing key keeps its place, a new one goes last. *)
Fixpoint dict_set {V} (k : string) (v : V) (d : pydict V) : pydict V :=
  match d with
  | [] => [(k, v)]
  | (k', v') :: d' =>
      if decide (k = k') then (k, v) :: d' else (k', v') :: dict_set k v d'
  end.

Definition dict_keys {V} (d : pydict V) : list string := map fst d.

Definition dict_mem {V} (k : string) (d : pydict V) : bool :=
  bool_decide (is_Some (dict_get k d)).

(** [for x in xs: body], stopping at the first exception. *)
Fixpoint for_each {S X} (body : X -> S -> result S) (xs : list X) (s : S)
  : result S :=
  match xs with
  | [] => Ok s
  | x :: xs' => s' ← body x s; for_each body xs' s'
  end.

Fixpoint enumerate_from {X} (i : nat) (xs : list X) : list (nat * X) :=
  match xs with
  | [] => []
  | x :: xs' => (i, x) :: enumerate_from (S i) xs'
  end.

Definition enumerate {X} (xs : list X) : list (nat * X) := enumerate_from 0 xs.

(** ** Values, records and the store *)

Abbreviation loc := nat (only parsing).

Section store.
Context {exact : Exact}.

(** What a field of a contribution or atlas record holds: a reference to a
    one-dimensional array, or a scalar. *)
Inductive value :=
  | VArr (l : loc)
  | VNum (x : num).

(** The array objects, by reference.  A new array takes the next free
    reference. *)
Definition alloc (v : list num) (h : list (list num)) : loc * list (list num) :=
  (length h, h ++ [v]).

(** [old += rhs].  An array on the left is updated in place and stays the
    same object; a scalar on the left is rebound to a new value. *)
Definition iadd (old rhs : value) (h : list (list num))
  : result (value * list (list num)) :=
  match old, rhs with
  | VNum x, VNum y => Ok (VNum (x + y)%num, h)
  | VArr l, VArr r =>
      a ← of_option ValueError (h !! l);
      b ← of_option ValueError (h !! r);
      if (length b =? length a) || (length b =? 1)
      then Ok (VArr l, <[l := zip_with num_add a (stretch (length a) b)]> h)
      else Err ValueError
  | VArr l, VNum y =>
      a ← of_option ValueError (h !! l);
      Ok (VArr l, <[l := map (fun x => x + y)%num a]> h)
  | VNum x, VArr r =>
      b ← of_option ValueError (h !! r);
      let '(l, h') := alloc (map (num_add x) b) h in
      Ok (VArr l, h')
  end.

(** [d[roi][f]] *)
Definition getfield (d : pydict (gmap string value)) (roi f : string)
  : result value :=
  rec ← of_option (KeyError roi) (dict_get roi d);
  of_option (KeyError f) (rec !! f).

(** [d[roi][f] = v] *)
Definition setfield (roi f : string) (v : value)
    (d : pydict (gmap string value)) : result (pydict (gmap string value)) :=
  rec ← of_option (KeyError roi) (dict_get roi d);
  Ok (dict_set roi (<[f := v]> rec) d).

(** [atlas[roi][f] += contribution[roi][f]] *)
Definition iadd_field (contribution : pydict (gmap string value))
    (roi f : string) (st : pydict (gmap string value) * list (list num))
  : result (pydict (gmap string value) * list (list num)) :=
  let '(atlas, h) := st in
  old ← getfield atlas roi f;
  rhs ← getfield contribution roi f;
  '(new, h') ← iadd old rhs h;
  atlas' ← setfield roi f new atlas;
  Ok (atlas', h').

(** ** consolidate *)

Definition consolidate_roi (contribution : pydict (gmap string value))
    (roi : string) (st : pydict (gmap string value) * list (list num))
  : result (pydict (gmap string value) * list (list num)) :=
  if dict_mem roi st.1 then
    st ← iadd_field contribution roi "avgr" st;
    st ← iadd_field contribution roi "fz" st;
    st ← iadd_field contribution roi "t" st;
    st ← iadd_field contribution roi "network_weight" st;
    st ← iadd_field contribution roi "numerator" st;
    iadd_field contribution roi "denominator" st
  else
    avgr ← getfield contribution roi "avgr";
    fz ← getfield contribution roi "fz";
    t ← getfield contribution roi "t";
    network_weight ← getfield contribution roi "network_weight";
    numerator ← getfield contribution roi "numerator";
    denominator ← getfield contribution roi "denominator";
    Ok (dict_set roi
          (<["avgr" := avgr]> (<["fz" := fz]> (<["t" := t]>
           (<["network_weight" := network_weight]>
            (<["numerator" := numerator]>
             (<["denominator" := denominator]> ∅))))))
          st.1, st.2).

(** [consolidate(contribution, atlas)], in the store [h]: the updated atlas
    and store. *)
Definition consolidate (contribution atlas : pydict (gmap string value))
    (h : list (list num))
  : result (pydict (gmap string value) * list (list num)) :=
  for_each (consolidate_roi contribution) (dict_keys contribution) (atlas, h).

End store.

(** ** process_chunk *)

(** The configuration of the precomputed connectome, as read with
    [config.get]. *)
Record config := Config {
  cfg_avgr : string;
  cfg_fz : string;
  cfg_t : string;
  cfg_combo : string;
  cfg_mask : string;
  cfg_chunk_idx : string;
  cfg_norm : string;
  cfg_std : string;
  cfg_chunk_size : nat;
  cfg_brain_size : nat
}.

(** The message of the exception raised on a chunk of the wrong shape.  The
    literal in the source has no [f] prefix: the braces and what is between
    them are part of the text. *)
Definition shape_message : string :=
  "Chunk expected to have shape {(config.get('chunk_size'), config.get('brain_size'))} but instead has shape {np.shape(chunk_data)}!".

Definition chunk_types : list (string * string) :=
  [("avgr", "AvgR"); ("fz", "AvgR_Fz"); ("t", "T"); ("combo", "Combo")].

Section process_chunk.
Context {exact : Exact}.

(** The collaborators outside the module: the maskers of [tools], which
    turn an image into a vector over the voxels of a mask, and the chunk
    files read by [np.load], found by directory, chunk index and label. *)
Record world := World {
  brain_transform : string -> string -> list num;
  chunk_transform : string -> nat -> string -> list num;
  np_load : string -> nat -> string -> result (ndarray2 num)
}.

(** [np.array([(weights != 0) for weights in a])] *)
Definition nonzero_masks (a : ndarray2 num) : result (ndarray2 bool) :=
  np_array2 (map (map nonzero) (rows a)).

(** One round of the loop over the statistics. *)
Definition process_chunk_type (w : world) (chunk : nat) (rois : list string)
    (cfg : config) (chunk_paths : gmap string string)
    (brain_weights chunk_weights : ndarray2 num)
    (brain_masks chunk_masks : ndarray2 bool)
    (norm_chunk_masks std_chunk_masks : ndarray2 num)
    (chunk_type : string * string)
    (st : pydict (gmap string value) * list (list num))
  : result (pydict (gmap string value) * list (list num)) :=
  dir ← of_option (KeyError chunk_type.1) (chunk_paths !! chunk_type.1);
  chunk_data ← np_load w dir chunk chunk_type.2;
  if negb (bool_decide ((shape0 chunk_data, shape1 chunk_data)
                        = (cfg_chunk_size cfg, cfg_brain_size cfg)))
  then Err (TypeError shape_message)
  else if bool_decide (chunk_type.1 = "combo") then
    let numerator := compute_numerator norm_chunk_masks in
    for_each (fun '(i, roi) '(contributions, h) =>
        denominator ← compute_denominator brain_weights chunk_weights
                        brain_masks chunk_masks chunk_data i;
        numerator_i ← of_option IndexError (numerator !! i);
        contributions ← setfield roi "numerator" (VNum numerator_i)
                          contributions;
        contributions ← setfield roi "denominator" (VNum denominator)
                          contributions;
        Ok (contributions, h))
      (enumerate rois) st
  else
    network_maps ← compute_network_maps std_chunk_masks chunk_data;
    for_each (fun '(i, roi) '(contributions, h) =>
        row ← getitem network_maps i;
        let '(l, h) := alloc row h in
        if bool_decide (chunk_type.1 = "avgr") then
          Ok (dict_set roi {[chunk_type.1 := VArr l]} contributions, h)
        else
          contributions ← setfield roi chunk_type.1 (VArr l) contributions;
          Ok (contributions, h))
      (enumerate rois) st.

(** [process_chunk(chunk, rois, config)], in the store [h].  The timing
    prints are left out.  Each row [network_maps[i,:]] is an array of its
    own in the store: the rows of a product do not overlap. *)
Definition process_chunk (w : world) (chunk : nat) (rois : list string)
    (cfg : config) (h : list (list num))
  : result (pydict (gmap string value) * list (list num)) :=
  let chunk_paths : gmap string string :=
    <["avgr" := cfg_avgr cfg]> (<["fz" := cfg_fz cfg]>
    (<["t" := cfg_t cfg]> (<["combo" := cfg_combo cfg]> ∅))) in
  let brain_masker := brain_transform w (cfg_mask cfg) in
  let chunk_masker := chunk_transform w (cfg_chunk_idx cfg) chunk in
  brain_weights ← np_array2 (map brain_masker rois);
  chunk_weights ← np_array2 (map chunk_masker rois);
  brain_masks ← nonzero_masks brain_weights;
  chunk_masks ← nonzero_masks chunk_weights;
  let norm_weight := chunk_masker (cfg_norm cfg) in
  let std_weight := chunk_masker (cfg_std cfg) in
  '(norm_chunk_masks, std_chunk_masks) ←
    compute_chunk_masks chunk_weights norm_weight std_weight;
  '(contributions, h) ←
    for_each (process_chunk_type w chunk rois cfg chunk_paths
                brain_weights chunk_weights brain_masks chunk_masks
                norm_chunk_masks std_chunk_masks)
      chunk_types ([], h);
  let network_weights := compute_network_weights std_chunk_masks in
  contributions ←
    for_each (fun '(i, roi) contributions =>
        network_weight ← of_option IndexError (network_weights !! i);
        setfield roi "network_weight" (VNum network_weight) contributions)
      (enumerate rois) contributions;
  Ok (contributions, h).

End process_chunk.

(** ** Index notation for the statements *)

Section index.
Context {exact : Exact}.

(** [v[j]] and [a[j,k]], zero outside the array. *)
Definition item (v : list num) (j : nat) : num := nth j v num0.
Definition item2 (a : ndarray2 num) (j k : nat) : num :=
  item (nth j (rows a) []) k.

(** The sum of [f j] over the indices [j] of a list, and over [j < n]. *)
Definition sum_over (idx : list nat) (f : nat -> num) : num :=
  vsum (map f idx).
Definition sum_below (n : nat) (f : nat -> num) : num :=
  sum_over (seq 0 n) f.

(** The positions at which a mask holds, counted from [i]. *)
Fixpoint support_from (i : nat) (mask : list bool) : list nat :=
  match mask with
  | [] => []
  | b :: mask' =>
      if b then i :: support_from (S i) mask' else support_from (S i) mask'
  end.
Definition support (mask : list bool) : list nat := support_from 0 mask.

(** The entries of [v] at the positions [idx]. *)
Definition select {A} (d : A) (idx : list nat) (v : list A) : list A :=
  map (fun j => nth j v d) idx.

(** The denominator as section 4.2 of the specification words it: first
    the chunk mask selects weights and rows of the data and the two are
    multiplied, then the brain mask selects columns of the product and
    weights and the two are multiplied, and all entries are added up. *)
Definition masked_denominator (bw cw : list num) (bm cm : list bool)
    (chunk_data : ndarray2 num) : num :=
  let chunk_rows := select [] (support cm) (rows chunk_data) in
  let chunk_w := select num0 (support cm) cw in
  let chunk_masked := zip_with (fun w r => map (num_mul w) r) chunk_w chunk_rows in
  let brain_cols := map (select num0 (support bm)) chunk_masked in
  let brain_w := select num0 (support bm) bw in
  let brain_masked := map (fun r => zip_with num_mul brain_w r) brain_cols in
  vsum (map vsum brain_masked).

(** [np.zeros((r, c))] *)
Definition np_zeros (r c : nat) : ndarray2 num :=
  Array2 r c (replicate r (replicate c num0)).

(** The number [n] in the ring. *)
Fixpoint num_of_nat (n : nat) : num :=
  match n with
  | 0 => num0
  | S n' => (num1 + num_of_nat n')%num
  end.

End index.

(** ** Records, atlases and what they hold *)

Definition field_names : list string :=
  ["avgr"; "fz"; "t"; "network_weight"; "numerator"; "denominator"].

Definition six_fields : gset string := list_to_set field_names.

Section observe.
Context {exact : Exact}.

(** What a field holds once its reference is followed: the entries of an
    array, or a scalar. *)
Inductive content :=
  | CVec (v : list num)
  | CNum (x : num).

Definition read (h : list (list num)) (v : value) : option content :=
  match v with
  | VArr l => CVec <$> h !! l
  | VNum x => Some (CNum x)
  end.

(** The content of [d[roi][f]] in the store [h], if there is one. *)
Definition peek (h : list (list num)) (d : pydict (gmap string value))
    (roi f : string) : option content :=
  dict_get roi d ≫= fun rec => rec !! f ≫= read h.

(** Two atlases with the same keys and the same content under every key
    and field. *)
Definition same_atlas (a1 : pydict (gmap string value)) (h1 : list (list num))
    (a2 : pydict (gmap string value)) (h2 : list (list num)) : Prop :=
  (forall roi, dict_mem roi a1 = dict_mem roi a2) /\
  (forall roi f, peek h1 a1 roi f = peek h2 a2 roi f).

(** Sum of two contents, a scalar being added to every entry of an
    array. *)
Definition content_add (a b : content) : content :=
  match a, b with
  | CVec u, CVec v => CVec (zip_with num_add u v)
  | CNum x, CNum y => CNum (x + y)%num
  | CVec u, CNum y => CVec (map (fun x => x + y)%num u)
  | CNum x, CVec v => CVec (map (num_add x) v)
  end.

(** Twice a content. *)
Definition content_double (a : content) : content := content_add a a.

(** Sum of two contents either of which may be missing. *)
Definition opt_add (a b : option content) : option content :=
  match a, b with
  | Some x, Some y => Some (content_add x y)
  | Some x, None => Some x
  | None, b => b
  end.

(** The array at [l] exists and has [n] entries. *)
Definition array_ok (n : nat) (h : list (list num)) (l : loc) : Prop :=
  exists v, h !! l = Some v /\ length v = n.

(** A record of the data model: exactly the six fields, [avgr], [fz] and
    [t] arrays of [n] entries, the other three scalars. *)
Definition record_ok (n : nat) (h : list (list num))
    (rec : gmap string value) : Prop :=
  dom rec = six_fields /\
  (forall f, f ∈ ["avgr"; "fz"; "t"] ->
     exists l, rec !! f = Some (VArr l) /\ array_ok n h l) /\
  (forall f, f ∈ ["network_weight"; "numerator"; "denominator"] ->
     exists x, rec !! f = Some (VNum x)).

(** A contribution record or atlas of the data model: a dictionary (no key
    twice) of such records. *)
Definition dict_ok (n : nat) (h : list (list num))
    (d : pydict (gmap string value)) : Prop :=
  NoDup (dict_keys d) /\ Forall (fun kr => record_ok n h kr.2) d.

(** The array objects a record and a dictionary refer to. *)
Definition record_locs (rec : gmap string value) : list loc :=
  flat_map (fun f => match rec !! f with
                     | Some (VArr l) => [l]
                     | _ => []
                     end) field_names.

Definition dict_locs (d : pydict (gmap string value)) : list loc :=
  flat_map (fun kr => record_locs kr.2) d.

(** The record with the given arrays and scalars. *)
Definition mk_record (avgr fz t : loc) (network_weight numerator denominator : num)
  : gmap string value :=
  <["avgr" := VArr avgr]> (<["fz" := VArr fz]> (<["t" := VArr t]>
  (<["network_weight" := VNum network_weight]>
   (<["numerator" := VNum numerator]>
    (<["denominator" := VNum denominator]> ∅))))).

(** The arrays of [h] are still there in [h'], with the same lengths. *)
Definition heap_like (h h' : list (list num)) : Prop :=
  length h' = length h /\
  forall l v, h !! l = Some v ->
    exists v', h' !! l = Some v' /\ length v' = length v.

(** The arrays the record under [k] refers to, none if there is no such
    record. *)
Definition locs_at (d : pydict (gmap string value)) (k : string) : list loc :=
  from_option record_locs [] (dict_get k d).

(** Consolidating a sequence of contributions, one after the other. *)
Definition consolidate_all (cs : list (pydict (gmap string value)))
    (st : pydict (gmap string value) * list (list num))
  : result (pydict (gmap string value) * list (list num)) :=
  for_each (fun c st => consolidate c st.1 st.2) cs st.

(** Consolidating each group of contributions into an atlas of its own,
    then the group atlases into one. *)
Definition consolidate_groups (gs : list (list (pydict (gmap string value))))
    (h : list (list num))
  : result (pydict (gmap string value) * list (list num)) :=
  '(atlases, h) ←
    for_each (fun g '(atlases, h) =>
        '(a, h) ← consolidate_all g ([], h);
        Ok (atlases ++ [a], h))
      gs ([], h);
  consolidate_all atlases ([], h).

End observe.

(** ** Concrete inputs, over the integers *)

Module Example.
Open Scope Z_scope.

(** Two ROIs, a chunk of four voxels, a brain of three. *)
Definition cfg : config :=
  Config "avgr_dir" "fz_dir" "t_dir" "combo_dir" "mask.nii" "chunk_idx.nii"
    "norm.nii" "std.nii" 4 3.

Definition rois : list string := ["r1"; "r2"].

Definition brain_weights : ndarray2 Z := Array2 2 3 [[1; 0; 3]; [0; 2; 0]].
Definition chunk_weights : ndarray2 Z :=
  Array2 2 4 [[1; 0; 2; 0]; [0; 1; 0; 1]].
Definition brain_masks : ndarray2 bool :=
  Array2 2 3 [[true; false; true]; [false; true; false]].
Definition chunk_masks : ndarray2 bool :=
  Array2 2 4 [[true; false; true; false]; [false; true; false; true]].
Definition norm_weight : list Z := [1; 1; 1; 1].
Definition std_weight : list Z := [2; 2; 2; 2].
Definition std_chunk_masks : ndarray2 Z :=
  Array2 2 4 [[2; 0; 4; 0]; [0; 2; 0; 2]].
Definition chunk_data : ndarray2 Z :=
  Array2 4 3 [[1; 2; 3]; [4; 5; 6]; [7; 8; 9]; [10; 11; 12]].

Definition transform_brain (mask roi : string) : list Z :=
  if decide (roi = "r1") then [1; 0; 3] else [0; 2; 0].

Definition transform_chunk (chunk_idx : string) (chunk : nat) (img : string)
  : list Z :=
  if decide (img = "r1") then [1; 0; 2; 0]
  else if decide (img = "r2") then [0; 1; 0; 1]
  else if decide (img = "norm.nii") then norm_weight
  else std_weight.

(** Every chunk file holds [chunk_data]. *)
Definition world_ok : world :=
  World transform_brain transform_chunk (fun _ _ _ => Ok chunk_data).

(** Every chunk file holds an array of shape (4, 4), or of shape (2, 5). *)
Definition world_4x4 : world :=
  World transform_brain transform_chunk
    (fun _ _ _ => Ok (Array2 4 4 (replicate 4 (replicate 4 0)))).
Definition world_2x5 : world :=
  World transform_brain transform_chunk
    (fun _ _ _ => Ok (Array2 2 5 (replicate 2 (replicate 5 0)))).

(** A contribution for the two ROIs, with the maps and the sums that the
    example gives, and its store. *)
Definition contribution : pydict (gmap string value) :=
  [("r1", mk_record 0 2 4 6 3 78); ("r2", mk_record 1 3 5 4 2 32)].
Definition store : list (list Z) :=
  [[30; 36; 42]; [28; 32; 36]; [30; 36; 42]; [28; 32; 36];
   [30; 36; 42]; [28; 32; 36]].

(** Two contributions for one ROI with arrays of their own. *)
Definition c1 : pydict (gmap string value) := [("r", mk_record 0 1 2 1 1 1)].
Definition c2 : pydict (gmap string value) := [("r", mk_record 3 4 5 1 1 1)].
Definition store12 : list (list Z) := [[1]; [1]; [1]; [10]; [10]; [10]].

(** A contribution whose [avgr] and [fz] are one and the same array. *)
Definition c_shared : pydict (gmap string value) :=
  [("r", mk_record 0 0 1 1 1 1)].
Definition store_shared : list (list Z) := [[1]; [1]].

(** A record without its [fz]. *)
Definition c_partial : pydict (gmap string value) :=
  [("r", <["avgr" := VArr 0]> (<["t" := VArr 2]> ∅))].

(** A contribution for the same ROI whose arrays have two entries. *)
Definition store_mixed : list (list Z) :=
  [[1]; [1]; [1]; [10; 20]; [10; 20]; [10; 20]].

(** The AvgR file of every chunk is missing. *)
Definition world_missing : world :=
  World transform_brain transform_chunk
    (fun dir _ _ => if decide (dir = "avgr_dir") then Err OSError
                    else Ok chunk_data).

(** An atlas of two ROIs and a contribution that has one of them and a new
    one, every array an object of its own. *)
Definition atlas_qr : pydict (gmap string value) :=
  [("q", mk_record 0 1 2 1 1 1); ("r", mk_record 3 4 5 1 1 1)].
Definition c_rs : pydict (gmap string value) :=
  [("r", mk_record 6 7 8 1 1 1); ("s", mk_record 9 10 11 1 1 1)].
Definition store_qrs : list (list Z) :=
  [[1]; [1]; [1]; [2]; [2]; [2]; [10]; [10]; [10]; [20]; [20]; [20]].

End Example.

(** * Properties *)

(** ** The result monad *)

Lemma bind_Ok {A B} (m : result A) (f : A -> result B) (b : B) :
  m ≫= f = Ok b <-> exists a, m = Ok a /\ f a = Ok b.
Proof.
  destruct m as [a|e]; simpl.
  - split; [eauto | intros (a' & [= <-] & ?); done].
  - split; [done | intros (a' & ? & ?); done].
Qed.

Lemma bind_ret {A B} (a : A) (f : A -> result B) : Ok a ≫= f = f a.
Proof. done. Qed.

Ltac ret_step := rewrite ?bind_ret; cbv beta.

Lemma of_option_Ok {A} (e : error) (o : option A) (a : A) :
  of_option e o = Ok a <-> o = Some a.
Proof. destruct o; simpl; split; congruence. Qed.

(** ** Lists *)

Lemma stretch_length {A} (n : nat) (l : list A) :
  length l = n -> stretch n l = l.
Proof. destruct l as [|x [|y l]]; simpl; intros <-; done. Qed.

Lemma compress_length {A} (mask : list bool) (v : list A) :
  length mask = length v -> length (compress mask v) = count_true mask.
Proof.
  revert v; induction mask as [|b mask IH]; intros [|x v]; simpl; try done.
  intros [= Hlen]. destruct b; simpl; by rewrite IH.
Qed.

Lemma compress_Forall {A} (P : A -> Prop) (mask : list bool) (v : list A) :
  Forall P v -> Forall P (compress mask v).
Proof.
  intros Hv; revert mask; induction Hv as [|x v Hx Hv IH]; intros [|b mask];
    simpl; try done.
  destruct b; [constructor|]; auto.
Qed.

Lemma support_from_bound (i : nat) (mask : list bool) (j : nat) :
  j ∈ support_from i mask -> i <= j < i + length mask.
Proof.
  revert i; induction mask as [|b mask IH]; intros i; simpl.
  - by intros ?%elem_of_nil.
  - destruct b; rewrite ?elem_of_cons; intros Hj.
    + destruct Hj as [->|Hj%IH]; lia.
    + apply IH in Hj; lia.
Qed.

Lemma compress_support_from {A} (d : A) (i : nat) (mask : list bool) (v : list A) :
  length mask = length v ->
  compress mask v = map (fun j => nth (j - i) v d) (support_from i mask).
Proof.
  revert i v; induction mask as [|b mask IH]; intros i [|x v];
    cbn [compress support_from length]; try done.
  intros [= Hlen].
  assert (Hshift : map (fun j => nth (j - i) (x :: v) d) (support_from (S i) mask)
                   = map (fun j => nth (j - S i) v d) (support_from (S i) mask)).
  { apply map_ext_in; intros j Hj%list_elem_of_In%support_from_bound.
    replace (j - i) with (S (j - S i)) by lia. done. }
  destruct b; cbn [map]; rewrite ?Nat.sub_diag, Hshift, <-IH by done; done.
Qed.

Lemma compress_select {A} (d : A) (mask : list bool) (v : list A) :
  length mask = length v -> compress mask v = select d (support mask) v.
Proof.
  intros Hlen. unfold select, support.
  rewrite (compress_support_from d 0) by done.
  apply map_ext; intros j. by rewrite Nat.sub_0_r.
Qed.


Lemma broadcast_dim_same (n : nat) : broadcast_dim n n = Ok n.
Proof. unfold broadcast_dim. by rewrite Nat.eqb_refl. Qed.

Lemma broadcast_dim_1_l (m : nat) : broadcast_dim 1 m = Ok m.
Proof.
  unfold broadcast_dim. destruct (Nat.eqb_spec 1 m) as [<-|]; [done|].
  by rewrite Nat.eqb_refl.
Qed.

Lemma broadcast_dim_1_r (n : nat) : broadcast_dim n 1 = Ok n.
Proof.
  unfold broadcast_dim. destruct (Nat.eqb_spec n 1) as [->|]; [done|].
  by rewrite Nat.eqb_refl.
Qed.

(** ** np.multiply on the shapes mapping.py meets *)

Section kernel_facts.
Context {exact : Exact}.
Add Ring num_ring_inst : num_ring.

Lemma zip_with_stretch_col (m : nat) (w : list num) (rs : list (list num)) :
  Forall (fun r => length r = m) rs ->
  zip_with (fun ra rb => zip_with num_mul (stretch m ra) (stretch m rb))
    (map (fun x => [x]) w) rs
  = zip_with (fun x r => map (num_mul x) r) w rs.
Proof.
  intros Hrs; revert w; induction Hrs as [|r rs Hr Hrs IH]; intros [|x w];
    simpl; try done.
  rewrite IH, (stretch_length m r), zip_with_replicate_l by (done || lia). done.
Qed.

Lemma np_multiply_col (w : list num) (a : ndarray2 num) :
  wf2 a -> length w = shape0 a ->
  np_multiply (reshape_col w) a
  = Ok (Array2 (shape0 a) (shape1 a)
          (zip_with (fun x r => map (num_mul x) r) w (rows a))).
Proof.
  intros [Hlen Hrows] Hw. unfold np_multiply, reshape_col; simpl.
  rewrite Hw, broadcast_dim_same, broadcast_dim_1_l; simpl.
  rewrite !stretch_length by (by rewrite ?length_map).
  by rewrite zip_with_stretch_col.
Qed.

Lemma np_multiply_row_l (v : list num) (a : ndarray2 num) :
  wf2 a -> length v = shape1 a ->
  np_multiply (as_row v) a
  = Ok (Array2 (shape0 a) (shape1 a)
          (map (fun r => zip_with num_mul v r) (rows a))).
Proof.
  intros [Hlen Hrows] Hv. unfold np_multiply, as_row; simpl.
  rewrite Hv, broadcast_dim_same, broadcast_dim_1_l; simpl.
  rewrite (stretch_length _ (rows a)), zip_with_replicate_l by (done || lia).
  do 2 f_equal. apply Forall_fmap_ext_1.
  eapply Forall_impl; [exact Hrows|]. intros r Hr; simpl.
  by rewrite !stretch_length.
Qed.

Lemma np_multiply_row_r (a : ndarray2 num) (v : list num) :
  wf2 a -> length v = shape1 a ->
  np_multiply a (as_row v)
  = Ok (Array2 (shape0 a) (shape1 a)
          (map (fun r => zip_with num_mul r v) (rows a))).
Proof.
  intros [Hlen Hrows] Hv. unfold np_multiply, as_row; simpl.
  rewrite Hv, broadcast_dim_same, broadcast_dim_1_r; simpl.
  rewrite (stretch_length _ (rows a)), zip_with_replicate_r by (done || lia).
  do 2 f_equal. apply Forall_fmap_ext_1.
  eapply Forall_impl; [exact Hrows|]. intros r Hr; simpl.
  by rewrite !stretch_length.
Qed.

End kernel_facts.

(** ** The denominator *)

Section denominator_facts.
Context {exact : Exact}.
Add Ring num_ring_denominator : num_ring.

Lemma np_array2_rows {A} (l : list (list A)) (a : ndarray2 A) :
  np_array2 l = Ok a -> rows a = l.
Proof.
  destruct l as [|r l]; simpl; [done|].
  destruct (_ && _); [|done]. by intros [= <-].
Qed.

Lemma nonzero_masks_rows (a : ndarray2 num) (m : ndarray2 bool) :
  nonzero_masks a = Ok m -> rows m = map (map nonzero) (rows a).
Proof. apply np_array2_rows. Qed.

Lemma nonzero_false (x : num) : nonzero x = false -> x = num0.
Proof.
  unfold nonzero. intros Hx%bool_decide_eq_false.
  by destruct (decide (x = num0)).
Qed.

Lemma getitem_lookup {A} (a : ndarray2 A) (i : nat) (r : list A) :
  rows a !! i = Some r -> getitem a i = Ok r.
Proof. unfold getitem. by intros ->. Qed.

Lemma getitem_mask_ok {A} (v : list A) (mask : list bool) :
  length mask = length v -> getitem_mask v mask = Ok (compress mask v).
Proof. unfold getitem_mask. intros ->. by rewrite Nat.eqb_refl. Qed.

Lemma getitem_mask_rows_ok {A} (a : ndarray2 A) (mask : list bool) :
  length mask = shape0 a ->
  getitem_mask_rows a mask
  = Ok (Array2 (count_true mask) (shape1 a) (compress mask (rows a))).
Proof. unfold getitem_mask_rows. intros ->. by rewrite Nat.eqb_refl. Qed.

Lemma getitem_mask_cols_ok {A} (a : ndarray2 A) (mask : list bool) :
  length mask = shape1 a ->
  getitem_mask_cols a mask
  = Ok (Array2 (shape0 a) (count_true mask) (map (compress mask) (rows a))).
Proof. unfold getitem_mask_cols. intros ->. by rewrite Nat.eqb_refl. Qed.

Lemma zip_with_scale_length (w : list num) (rs : list (list num)) (m : nat) :
  Forall (fun r => length r = m) rs ->
  Forall (fun r => length r = m)
    (zip_with (fun x r => map (num_mul x) r) w rs).
Proof.
  intros Hrs; revert w; induction Hrs as [|r rs Hr Hrs IH]; intros [|x w];
    simpl; constructor; auto.
  by rewrite length_map.
Qed.

(** What [compute_denominator] evaluates to, in terms of the selections
    NumPy makes. *)
Lemma compute_denominator_rows
    (brain_weights chunk_weights : ndarray2 num)
    (brain_masks chunk_masks : ndarray2 bool) (chunk_data : ndarray2 num)
    (i : nat) (bw cw : list num) (bm cm : list bool) :
  rows brain_weights !! i = Some bw ->
  rows chunk_weights !! i = Some cw ->
  rows brain_masks !! i = Some bm ->
  rows chunk_masks !! i = Some cm ->
  wf2 chunk_data ->
  length cw = shape0 chunk_data -> length cm = shape0 chunk_data ->
  length bw = shape1 chunk_data -> length bm = shape1 chunk_data ->
  compute_denominator brain_weights chunk_weights brain_masks chunk_masks
    chunk_data i
  = Ok (vsum (map vsum
          (map (fun r => zip_with num_mul (compress bm bw) (compress bm r))
             (zip_with (fun x r => map (num_mul x) r)
                (compress cm cw) (compress cm (rows chunk_data)))))).
Proof.
  intros Hbw Hcw Hbm Hcm [Hlen Hrows] Lcw Lcm Lbw Lbm.
  unfold compute_denominator.
  rewrite (getitem_lookup _ _ _ Hcw), (getitem_lookup _ _ _ Hcm),
    (getitem_lookup _ _ _ Hbw), (getitem_lookup _ _ _ Hbm); ret_step.
  rewrite getitem_mask_ok by congruence; ret_step.
  rewrite getitem_mask_rows_ok by done; ret_step.
  rewrite np_multiply_col; ret_step.
  2: { split; simpl; [|by apply compress_Forall].
       apply compress_length; congruence. }
  2: { simpl. apply compress_length; congruence. }
  rewrite getitem_mask_ok by congruence; ret_step.
  rewrite getitem_mask_cols_ok by done; ret_step.
  rewrite np_multiply_row_l; ret_step.
  - simpl. by rewrite map_map.
  - split; simpl.
    + rewrite length_map, length_zip_with, !compress_length by congruence. lia.
    + apply Forall_map.
      eapply Forall_impl;
        [apply zip_with_scale_length, compress_Forall, Hrows|].
      intros r Hr; simpl. apply compress_length; congruence.
  - simpl. apply compress_length; congruence.
Qed.

Lemma vsum_cons (x : num) (v : list num) : vsum (x :: v) = (x + vsum v)%num.
Proof. done. Qed.


Lemma sum_over_ext (idx : list nat) (f g : nat -> num) :
  (forall j, j ∈ idx -> f j = g j) -> sum_over idx f = sum_over idx g.
Proof.
  intros Hfg. unfold sum_over. f_equal. apply map_ext_in.
  intros j Hj%list_elem_of_In. auto.
Qed.

Lemma sum_over_zero (idx : list nat) (f : nat -> num) :
  (forall j, j ∈ idx -> f j = num0) -> sum_over idx f = num0.
Proof.
  unfold sum_over. induction idx as [|j idx IH]; intros Hf; cbn [map]; [done|].
  rewrite vsum_cons, IH, Hf; [ring|set_solver|].
  intros j' Hj'. apply Hf. set_solver.
Qed.

Lemma item_map_mul (x : num) (r : list num) (k : nat) :
  item (map (num_mul x) r) k = (x * item r k)%num.
Proof.
  unfold item. revert k; induction r as [|y r IH]; intros [|k]; simpl;
    try ring; done.
Qed.

Lemma zip_with_map_same {A B C D} (f : B -> C -> D) (g : A -> B)
    (h : A -> C) (l : list A) :
  zip_with f (map g l) (map h l) = map (fun a => f (g a) (h a)) l.
Proof. induction l as [|a l IH]; simpl; by rewrite ?IH. Qed.

(** The wording of the specification, entry by entry. *)
Lemma masked_denominator_sum (bw cw : list num) (bm cm : list bool)
    (chunk_data : ndarray2 num) :
  masked_denominator bw cw bm cm chunk_data
  = sum_over (support cm) (fun j =>
      sum_over (support bm) (fun k =>
        item bw k * (item cw j * item2 chunk_data j k)))%num.
Proof.
  unfold masked_denominator, select, sum_over.
  rewrite zip_with_map_same, !map_map. f_equal.
  apply map_ext; intros j.
  rewrite zip_with_map_same. f_equal.
  apply map_ext; intros k.
  fold (item bw k) (item cw j) (item (map (num_mul (item cw j))
                                      (nth j (rows chunk_data) [])) k).
  by rewrite item_map_mul.
Qed.

(** Selection by mask is selection of the positions where the mask
    holds. *)
Lemma compute_denominator_masked_rows
    (brain_weights chunk_weights : ndarray2 num)
    (brain_masks chunk_masks : ndarray2 bool) (chunk_data : ndarray2 num)
    (i : nat) (bw cw : list num) (bm cm : list bool) :
  rows brain_weights !! i = Some bw ->
  rows chunk_weights !! i = Some cw ->
  rows brain_masks !! i = Some bm ->
  rows chunk_masks !! i = Some cm ->
  wf2 chunk_data ->
  length cw = shape0 chunk_data -> length cm = shape0 chunk_data ->
  length bw = shape1 chunk_data -> length bm = shape1 chunk_data ->
  compute_denominator brain_weights chunk_weights brain_masks chunk_masks
    chunk_data i
  = Ok (masked_denominator bw cw bm cm chunk_data).
Proof.
  intros Hbw Hcw Hbm Hcm Hwf Lcw Lcm Lbw Lbm.
  rewrite (compute_denominator_rows _ _ _ _ _ _ bw cw bm cm) by done.
  destruct Hwf as [Hlen Hrows].
  unfold masked_denominator. do 3 f_equal.
  rewrite <-!compress_select by congruence.
  rewrite map_map. apply Forall_fmap_ext_1.
  eapply Forall_impl;
    [apply zip_with_scale_length, compress_Forall, Hrows|].
  intros r Hr; simpl. by rewrite <-compress_select by congruence.
Qed.

(** Summing over the support of a mask is summing over all positions when
    the summand vanishes off the support. *)
Lemma sum_over_support_from (i : nat) (mask : list bool) (g : nat -> num) :
  (forall j, i <= j < i + length mask ->
             nth (j - i) mask false = false -> g j = num0) ->
  sum_over (support_from i mask) g = sum_over (seq i (length mask)) g.
Proof.
  revert i; induction mask as [|b mask IH]; intros i Hg; [done|].
  assert (Htail : sum_over (support_from (S i) mask) g
                  = sum_over (seq (S i) (length mask)) g).
  { apply IH. intros j Hj Hnth. apply Hg; [simpl; lia|].
    replace (j - i) with (S (j - S i)) by lia. done. }
  unfold sum_over in *.
  destruct b; cbn [support_from length seq map]; rewrite ?vsum_cons, Htail;
    [done|].
  rewrite (Hg i); [ring|simpl; lia|]. by rewrite Nat.sub_diag.
Qed.

Lemma sum_over_support (w : list num) (g : nat -> num) :
  (forall j, item w j = num0 -> g j = num0) ->
  sum_over (support (map nonzero w)) g = sum_below (length w) g.
Proof.
  intros Hg. unfold support, sum_below.
  rewrite sum_over_support_from, length_map; [done|].
  intros j Hj Hnth. apply Hg. rewrite Nat.sub_0_r in Hnth.
  rewrite length_map in Hj. unfold item.
  apply nonzero_false. rewrite <-Hnth.
  rewrite (nth_indep _ false (nonzero num0)) by (rewrite length_map; lia).
  by rewrite map_nth.
Qed.

(** C1: for the ROI index [i], with the masks the nonzero masks of the
    weights, [compute_denominator] returns what the specification words:
    the chunk mask first selects weights of [chunk_weights[i]] and the
    matching rows of [chunk_data], which are multiplied; then the brain
    mask selects columns of that product and weights of
    [brain_weights[i]], which are multiplied; the result is the sum of
    all entries.  Entry by entry: rows [j] run over the support of the
    chunk mask and columns [k] over the support of the brain mask. *)
Theorem compute_denominator_masked
    (brain_weights chunk_weights : ndarray2 num)
    (brain_masks chunk_masks : ndarray2 bool) (chunk_data : ndarray2 num)
    (i : nat) (bw cw : list num) :
  wf2 chunk_data ->
  nonzero_masks brain_weights = Ok brain_masks ->
  nonzero_masks chunk_weights = Ok chunk_masks ->
  rows brain_weights !! i = Some bw ->
  rows chunk_weights !! i = Some cw ->
  length cw = shape0 chunk_data ->
  length bw = shape1 chunk_data ->
  compute_denominator brain_weights chunk_weights brain_masks chunk_masks
    chunk_data i
  = Ok (masked_denominator bw cw (map nonzero bw) (map nonzero cw) chunk_data)
  /\ masked_denominator bw cw (map nonzero bw) (map nonzero cw) chunk_data
     = sum_over (support (map nonzero cw)) (fun j =>
         sum_over (support (map nonzero bw)) (fun k =>
           item bw k * (item cw j * item2 chunk_data j k)))%num.
Proof.
  intros Hwf Hbm%nonzero_masks_rows Hcm%nonzero_masks_rows Hbw Hcw Lcw Lbw.
  split; [|apply masked_denominator_sum].
  apply compute_denominator_masked_rows; rewrite ?length_map; try done.
  - by rewrite Hbm, list_lookup_fmap, Hbw.
  - by rewrite Hcm, list_lookup_fmap, Hcw.
Qed.

(** C10: with the masks the nonzero masks of the weights, the denominator
    of ROI [i] is the full bilinear form
    [sum_j sum_k chunk_weights[i][j] * chunk_data[j][k] * brain_weights[i][k]]
    over all [j < C] and [k < brain_size]: the masks only leave out terms
    that are zero. *)
Theorem compute_denominator_bilinear
    (brain_weights chunk_weights : ndarray2 num)
    (brain_masks chunk_masks : ndarray2 bool) (chunk_data : ndarray2 num)
    (i : nat) (bw cw : list num) :
  wf2 chunk_data ->
  nonzero_masks brain_weights = Ok brain_masks ->
  nonzero_masks chunk_weights = Ok chunk_masks ->
  rows brain_weights !! i = Some bw ->
  rows chunk_weights !! i = Some cw ->
  length cw = shape0 chunk_data ->
  length bw = shape1 chunk_data ->
  compute_denominator brain_weights chunk_weights brain_masks chunk_masks
    chunk_data i
  = Ok (sum_below (shape0 chunk_data) (fun j =>
          sum_below (shape1 chunk_data) (fun k =>
            item cw j * item2 chunk_data j k * item bw k)))%num.
Proof.
  intros Hwf Hbm%nonzero_masks_rows Hcm%nonzero_masks_rows Hbw Hcw Lcw Lbw.
  rewrite (compute_denominator_masked_rows _ _ _ _ _ _ bw cw
             (map nonzero bw) (map nonzero cw)); rewrite ?length_map; try done.
  2: by rewrite Hbm, list_lookup_fmap, Hbw.
  2: by rewrite Hcm, list_lookup_fmap, Hcw.
  f_equal. rewrite masked_denominator_sum, <-Lcw, <-Lbw.
  assert (Hinner : forall j,
    sum_over (support (map nonzero bw)) (fun k =>
      item bw k * (item cw j * item2 chunk_data j k))%num
    = sum_below (length bw) (fun k =>
        item cw j * item2 chunk_data j k * item bw k)%num).
  { intros j. rewrite sum_over_support.
    - apply sum_over_ext. intros; ring.
    - intros k ->. ring. }
  rewrite sum_over_support.
  - apply sum_over_ext. intros j _. apply Hinner.
  - intros j Hj. apply sum_over_zero. intros k _. rewrite Hj. ring.
Qed.

End denominator_facts.

(** ** Row sums, products and weighted masks *)

Section kernel_claims.
Context {exact : Exact}.
Add Ring num_ring_kernel : num_ring.

Lemma sum_over_seq_S (i n : nat) (f : nat -> num) :
  sum_over (seq (S i) n) f = sum_over (seq i n) (fun j => f (S j)).
Proof. unfold sum_over. by rewrite <-seq_shift, map_map. Qed.

Lemma sum_below_S (n : nat) (f : nat -> num) :
  sum_below (S n) f = (f 0 + sum_below n (fun j => f (S j)))%num.
Proof.
  unfold sum_below. rewrite <-sum_over_seq_S. unfold sum_over.
  cbn [seq map]. by rewrite vsum_cons.
Qed.

Lemma vsum_sum_below (v : list num) :
  vsum v = sum_below (length v) (item v).
Proof.
  induction v as [|x v IH]; [done|].
  cbn [length]. by rewrite sum_below_S, vsum_cons, IH.
Qed.

Lemma item_zip_with_mul (u v : list num) (j : nat) :
  item (zip_with num_mul u v) j = (item u j * item v j)%num.
Proof.
  unfold item. revert v j; induction u as [|x u IH]; intros [|y v] [|j];
    simpl; try ring; done.
Qed.

Lemma item_vadd (u v : list num) (j : nat) :
  length u = length v ->
  item (vadd u v) j = (item u j + item v j)%num.
Proof.
  unfold item, vadd. revert v j; induction u as [|x u IH]; intros [|y v] [|j];
    simpl; intros [=]; try ring; auto.
Qed.

Lemma combine_rows_length (n : nat) (c : list num) (rs : list (list num)) :
  Forall (fun r => length r = n) rs -> length (combine_rows n c rs) = n.
Proof.
  intros Hrs; revert c; induction Hrs as [|r rs Hr Hrs IH]; intros [|x c];
    simpl; rewrite ?length_replicate; try done.
  unfold vadd, vscale. rewrite length_zip_with, length_map, IH. lia.
Qed.

Lemma item_replicate_zero (n k : nat) : item (replicate n num0) k = num0.
Proof.
  unfold item. revert k; induction n as [|n IH]; intros [|k]; simpl; auto.
Qed.

(** An entry of a product row is the sum of the products along the
    row. *)
Lemma combine_rows_item (n : nat) (c : list num) (rs : list (list num))
    (k : nat) :
  Forall (fun r => length r = n) rs -> length c = length rs ->
  item (combine_rows n c rs) k
  = sum_below (length c) (fun j => item c j * item (nth j rs []) k)%num.
Proof.
  intros Hrs; revert c; induction Hrs as [|r rs Hr Hrs IH]; intros [|x c];
    cbn [combine_rows length]; intros Hlen; try done.
  - by rewrite item_replicate_zero.
  - injection Hlen as Hlen. rewrite sum_below_S, item_vadd.
    2: { unfold vscale. by rewrite length_map, combine_rows_length. }
    unfold vscale. rewrite item_map_mul, IH by done. done.
Qed.

Lemma combine_rows_zero (n : nat) (c : list num) (rs : list (list num)) :
  Forall (fun r => length r = n) rs -> Forall (fun x => x = num0) c ->
  combine_rows n c rs = replicate n num0.
Proof.
  intros Hrs; revert c; induction Hrs as [|r rs Hr Hrs IH]; intros [|x c];
    simpl; try done.
  intros Hc. inversion Hc as [|? ? -> Hc']; subst. rewrite IH by done.
  unfold vadd, vscale. rewrite zip_with_replicate_r
    by (rewrite length_map; lia).
  clear. induction r as [|y r IH]; simpl; [done|].
  f_equal; [ring|done].
Qed.

Lemma nth_map_rows {A B} (f : list A -> list B) (l : list (list A)) (i : nat) :
  f [] = [] -> nth i (map f l) [] = f (nth i l []).
Proof. intros Hf. rewrite <-Hf at 1. apply map_nth. Qed.

Lemma nth_map_lt {A B} (f : A -> B) (l : list A) (i : nat) (d : B) (d' : A) :
  i < length l -> nth i (map f l) d = f (nth i l d').
Proof.
  intros Hi. rewrite (nth_indep _ d (f d')) by (by rewrite length_map).
  apply map_nth.
Qed.

(** The body of [compute_network_maps] is the matrix product: for
    conforming shapes [np.matmul(M, D)] is an array of shape
    (R, brain_size) whose entry [(i, k)] is [sum_j M[i][j] * D[j][k]], and
    the product of the zero matrix with any [D] is the zero matrix. *)
Lemma np_matmul_product (M D : ndarray2 num) (r : nat) :
  wf2 M -> wf2 D -> shape1 M = shape0 D ->
  (exists P,
      np_matmul M D = Ok P /\
      wf2 P /\ shape0 P = shape0 M /\ shape1 P = shape1 D /\
      forall i k, i < shape0 M -> k < shape1 D ->
        item2 P i k
        = sum_below (shape1 M) (fun j => item2 M i j * item2 D j k)%num) /\
  np_matmul (np_zeros r (shape0 D)) D = Ok (np_zeros r (shape1 D)).
Proof.
  intros [HMlen HMrows] [HDlen HDrows] Hconf. split.
  - unfold np_matmul.
    rewrite Hconf, Nat.eqb_refl.
    eexists; split; [done|]. repeat split; simpl.
    + by rewrite length_map.
    + apply Forall_map, Forall_forall. intros ra _; simpl.
      by apply combine_rows_length.
    + intros i k Hi Hk. unfold item2; simpl.
      rewrite (nth_map_lt _ _ _ _ []) by lia.
      assert (Hra : length (nth i (rows M) []) = length (rows D)).
      { rewrite HDlen, <-Hconf.
        rewrite Forall_forall in HMrows. apply HMrows.
        apply list_elem_of_In, nth_In. lia. }
      by rewrite combine_rows_item, Hra, HDlen, <-Hconf.
  - unfold np_matmul, np_zeros; simpl.
    rewrite Nat.eqb_refl. do 2 f_equal.
    induction r as [|r IH]; simpl; [done|]. rewrite IH. f_equal.
    apply combine_rows_zero; [done|]. by apply Forall_replicate.
Qed.

(** C7: [compute_network_maps] returns no matrix product.  Its body is
    [np.matmul] under [@jit(nopython=True)], which numba cannot type: for
    all arguments, of conforming shapes or not, the call raises
    [TypingError]; so it does for the masks and the chunk of the example,
    whose product [np.matmul] itself gives, and for the zero matrix. *)
Theorem compute_network_maps_typing_error :
  (forall (M D : ndarray2 num), compute_network_maps M D = Err TypingError) /\
  np_matmul (exact := Z_exact) Example.std_chunk_masks Example.chunk_data
  = Ok (Array2 2 3 [[30; 36; 42]; [28; 32; 36]]%Z) /\
  compute_network_maps (exact := Z_exact)
    Example.std_chunk_masks Example.chunk_data = Err TypingError /\
  compute_network_maps (exact := Z_exact) (np_zeros 2 4) Example.chunk_data
  = Err TypingError.
Proof. split; [intros M D; reflexivity|]. repeat split. Qed.

(** C8: for [chunk_weights] of shape (R, C) and [norm_weight], [std_weight]
    of length C, [compute_chunk_masks] returns the two row-broadcast
    products [chunk_weights * norm_weight] and [chunk_weights * std_weight],
    both of shape (R, C).  The function reads and writes nothing but its
    arguments and its result. *)
Theorem compute_chunk_masks_broadcast (chunk_weights : ndarray2 num)
    (norm_weight std_weight : list num) :
  wf2 chunk_weights ->
  length norm_weight = shape1 chunk_weights ->
  length std_weight = shape1 chunk_weights ->
  exists norm_chunk_masks std_chunk_masks,
    compute_chunk_masks chunk_weights norm_weight std_weight
    = Ok (norm_chunk_masks, std_chunk_masks) /\
    wf2 norm_chunk_masks /\ wf2 std_chunk_masks /\
    shape0 norm_chunk_masks = shape0 chunk_weights /\
    shape1 norm_chunk_masks = shape1 chunk_weights /\
    shape0 std_chunk_masks = shape0 chunk_weights /\
    shape1 std_chunk_masks = shape1 chunk_weights /\
    forall i j,
      item2 norm_chunk_masks i j
      = (item2 chunk_weights i j * item norm_weight j)%num /\
      item2 std_chunk_masks i j
      = (item2 chunk_weights i j * item std_weight j)%num.
Proof.
  intros Hwf Hnorm Hstd. unfold compute_chunk_masks.
  rewrite !np_multiply_row_r by done. ret_step.
  destruct Hwf as [Hlen Hrows].
  assert (Hshape : forall v, length v = shape1 chunk_weights ->
    Forall (fun r => length r = shape1 chunk_weights)
      (map (fun r => zip_with num_mul r v) (rows chunk_weights))).
  { intros v Hv. apply Forall_map. eapply Forall_impl; [exact Hrows|].
    intros r' Hr'; simpl in *. rewrite length_zip_with. lia. }
  eexists _, _; split; [done|].
  repeat split; simpl; rewrite ?length_map; auto.
  all: unfold item2; simpl;
    rewrite (nth_map_rows (fun r => zip_with num_mul r _)) by done;
    apply item_zip_with_mul.
Qed.

(** C9: [compute_network_weights] returns the vector of the R row sums;
    and for [chunk_weights = [[1,0,2,0],[0,1,0,1]]] and
    [std_weight = [2,2,2,2]] the weighted masks are
    [[2,0,4,0],[0,2,0,2]], with network weights [6, 4]. *)
Theorem compute_network_weights_row_sums (std_chunk_masks : ndarray2 num) :
  wf2 std_chunk_masks ->
  (length (compute_network_weights std_chunk_masks) = shape0 std_chunk_masks /\
   forall i, i < shape0 std_chunk_masks ->
     item (compute_network_weights std_chunk_masks) i
     = sum_below (shape1 std_chunk_masks) (fun j => item2 std_chunk_masks i j)) /\
  (exists norm_chunk_masks,
     compute_chunk_masks
       (Array2 2 4 (map (map num_of_nat) [[1; 0; 2; 0]; [0; 1; 0; 1]]))
       (map num_of_nat [1; 1; 1; 1]) (map num_of_nat [2; 2; 2; 2])
     = Ok (norm_chunk_masks,
           Array2 2 4 (map (map num_of_nat) [[2; 0; 4; 0]; [0; 2; 0; 2]]))) /\
  compute_network_weights
    (Array2 2 4 (map (map num_of_nat) [[2; 0; 4; 0]; [0; 2; 0; 2]]))
  = map num_of_nat [6; 4].
Proof.
  intros [Hlen Hrows]. split; [split|split].
  - unfold compute_network_weights, np_sum_axis1. by rewrite length_map.
  - intros i Hi. unfold compute_network_weights, np_sum_axis1, item2.
    unfold item at 1.
    rewrite (nth_map_lt _ _ _ _ []), vsum_sum_below by lia. f_equal.
    rewrite Forall_forall in Hrows. apply Hrows.
    apply list_elem_of_In, nth_In. lia.
  - eexists. unfold compute_chunk_masks, np_multiply; simpl.
    do 3 f_equal. repeat (f_equal; try ring).
  - unfold compute_network_weights, np_sum_axis1, vsum; simpl.
    repeat (f_equal; try ring).
Qed.

End kernel_claims.

(** ** Dictionaries *)

Section dict_facts.
Context {V : Type}.
Implicit Types (d : pydict V) (k : string) (v : V).

Lemma dict_get_set_eq k v d : dict_get k (dict_set k v d) = Some v.
Proof.
  induction d as [|[k' v'] d IH]; simpl.
  - by rewrite decide_True.
  - destruct (decide (k = k')) as [->|Hne]; simpl.
    + by rewrite decide_True.
    + by rewrite decide_False.
Qed.

Lemma dict_get_set_ne k k' v d :
  k <> k' -> dict_get k' (dict_set k v d) = dict_get k' d.
Proof.
  intros Hne. induction d as [|[k2 v2] d IH]; simpl.
  - by rewrite decide_False.
  - destruct (decide (k = k2)) as [->|Hne2]; simpl.
    + by rewrite !decide_False.
    + by rewrite IH.
Qed.

Lemma dict_get_None k d : dict_get k d = None <-> k ∉ dict_keys d.
Proof.
  induction d as [|[k' v'] d IH]; simpl.
  - split; [intros _; apply not_elem_of_nil|done].
  - rewrite not_elem_of_cons. destruct (decide (k = k')) as [->|Hne].
    + split; [done|]. by intros [? _].
    + rewrite IH. tauto.
Qed.

Lemma dict_get_Some_keys k v d : dict_get k d = Some v -> k ∈ dict_keys d.
Proof.
  intros Hget. destruct (decide (k ∈ dict_keys d)) as [|Hk]; [done|].
  apply dict_get_None in Hk. congruence.
Qed.

Lemma dict_get_elem k v d : dict_get k d = Some v -> (k, v) ∈ d.
Proof.
  induction d as [|[k' v'] d IH]; simpl; [done|].
  destruct (decide (k = k')) as [->|Hne].
  - intros [= ->]. apply list_elem_of_here.
  - intros Hget. apply list_elem_of_further. auto.
Qed.

Lemma dict_elem_get k v d :
  NoDup (dict_keys d) -> (k, v) ∈ d -> dict_get k d = Some v.
Proof.
  induction d as [|[k' v'] d IH]; simpl.
  - by intros _ ?%elem_of_nil.
  - intros [Hk' Hd]%NoDup_cons [[= -> ->]|Hin]%elem_of_cons.
    + by rewrite decide_True.
    + rewrite decide_False; [auto|]. intros ->. apply Hk'.
      apply list_elem_of_fmap. by exists (k', v).
Qed.

Lemma dict_mem_true k d : dict_mem k d = true <-> is_Some (dict_get k d).
Proof. unfold dict_mem. apply bool_decide_eq_true. Qed.

Lemma dict_mem_false k d : dict_mem k d = false <-> dict_get k d = None.
Proof.
  unfold dict_mem. rewrite bool_decide_eq_false, eq_None_not_Some. done.
Qed.

Lemma dict_set_present k v v' d :
  dict_get k d = Some v' ->
  dict_keys (dict_set k v d) = dict_keys d.
Proof.
  induction d as [|[k2 v2] d IH]; simpl; [done|].
  destruct (decide (k = k2)) as [->|Hne]; simpl; [done|].
  intros Hget. by rewrite IH.
Qed.

Lemma dict_set_absent k v d :
  dict_get k d = None -> dict_set k v d = d ++ [(k, v)].
Proof.
  induction d as [|[k2 v2] d IH]; simpl; [done|].
  destruct (decide (k = k2)) as [->|Hne]; simpl; [done|].
  intros Hget. by rewrite IH.
Qed.

Lemma dict_set_set k v v' d :
  dict_set k v (dict_set k v' d) = dict_set k v d.
Proof.
  induction d as [|[k2 v2] d IH]; simpl.
  - by rewrite decide_True.
  - destruct (decide (k = k2)) as [->|Hne]; simpl.
    + by rewrite decide_True.
    + by rewrite decide_False, IH.
Qed.

Lemma dict_set_Forall (P : string * V -> Prop) k v d :
  Forall P d -> P (k, v) -> Forall P (dict_set k v d).
Proof.
  intros Hd Hkv. induction Hd as [|[k2 v2] d Hk2 Hd IH]; simpl.
  - by constructor.
  - destruct (decide (k = k2)) as [->|Hne]; by constructor.
Qed.

Lemma dict_set_keys_NoDup k v d :
  NoDup (dict_keys d) -> NoDup (dict_keys (dict_set k v d)).
Proof.
  intros Hd. destruct (dict_get k d) as [v'|] eqn:Hget.
  - by rewrite (dict_set_present _ _ v').
  - rewrite dict_set_absent by done. unfold dict_keys.
    rewrite map_app; simpl. apply NoDup_app. split; [done|].
    split; [|apply NoDup_singleton].
    intros k' Hk' ->%list_elem_of_singleton.
    by apply dict_get_None in Hget.
Qed.

End dict_facts.

(** ** The store, records and the in-place sum *)

Section store_facts.
Context {exact : Exact}.
Implicit Types (h : list (list num)) (d c A : pydict (gmap string value)).
Implicit Types (rec : gmap string value).

Lemma heap_like_refl h : heap_like h h.
Proof. split; eauto. Qed.

Lemma heap_like_trans h1 h2 h3 :
  heap_like h1 h2 -> heap_like h2 h3 -> heap_like h1 h3.
Proof.
  intros [L12 H12] [L23 H23]. split; [congruence|].
  intros l v Hl. destruct (H12 _ _ Hl) as (v' & Hl' & Hv').
  destruct (H23 _ _ Hl') as (v'' & Hl'' & Hv''). exists v''. split; [done|lia].
Qed.

Lemma heap_like_insert h l v v' :
  h !! l = Some v -> length v' = length v -> heap_like h (<[l := v']> h).
Proof.
  intros Hl Hlen. split; [apply length_insert|].
  intros l2 v2 Hl2. destruct (decide (l = l2)) as [<-|Hne].
  - exists v'. rewrite list_lookup_insert_eq by (by eapply lookup_lt_Some).
    split; [done|congruence].
  - exists v2. by rewrite list_lookup_insert_ne.
Qed.

Lemma array_ok_heap_like n h h' l :
  heap_like h h' -> array_ok n h l -> array_ok n h' l.
Proof.
  intros [_ Hlike] (v & Hl & Hv). destruct (Hlike _ _ Hl) as (v' & Hl' & Hv').
  exists v'. split; [done|lia].
Qed.

Lemma record_ok_heap_like n h h' rec :
  heap_like h h' -> record_ok n h rec -> record_ok n h' rec.
Proof.
  intros Hlike (Hdom & Hvec & Hnum). split; [done|]. split; [|done].
  intros f Hf. destruct (Hvec f Hf) as (l & Hl & Hok).
  exists l. split; [done|]. by eapply array_ok_heap_like.
Qed.

Lemma dict_ok_heap_like n h h' d :
  heap_like h h' -> dict_ok n h d -> dict_ok n h' d.
Proof.
  intros Hlike [Hkeys Hrecs]. split; [done|].
  eapply Forall_impl; [exact Hrecs|]. intros kr. by apply record_ok_heap_like.
Qed.

(** A record of the data model is one built by [mk_record]. *)
Lemma mk_record_ok n h la lf lt w nu de :
  array_ok n h la -> array_ok n h lf -> array_ok n h lt ->
  record_ok n h (mk_record la lf lt w nu de).
Proof.
  intros Ha Hf Ht. split; [done|]. split.
  - intros f. rewrite !elem_of_cons, elem_of_nil.
    intros [->|[->|[->|[]]]]; eexists; (split; [reflexivity|done]).
  - intros f. rewrite !elem_of_cons, elem_of_nil.
    intros [->|[->|[->|[]]]]; eexists; reflexivity.
Qed.

Lemma six_fields_cases (f : string) :
  f ∈ six_fields ->
  f = "avgr" \/ f = "fz" \/ f = "t" \/ f = "network_weight" \/
  f = "numerator" \/ f = "denominator".
Proof.
  unfold six_fields, field_names. rewrite elem_of_list_to_set.
  rewrite !elem_of_cons, elem_of_nil. tauto.
Qed.

Lemma record_ok_mk n h rec :
  record_ok n h rec ->
  exists la lf lt w nu de,
    rec = mk_record la lf lt w nu de /\
    array_ok n h la /\ array_ok n h lf /\ array_ok n h lt.
Proof.
  intros (Hdom & Hvec & Hnum).
  destruct (Hvec "avgr") as (la & Hla & Oka); [repeat constructor|].
  destruct (Hvec "fz") as (lf & Hlf & Okf); [repeat constructor|].
  destruct (Hvec "t") as (lt & Hlt & Okt); [repeat constructor|].
  destruct (Hnum "network_weight") as (w & Hw); [repeat constructor|].
  destruct (Hnum "numerator") as (nu & Hnu); [repeat constructor|].
  destruct (Hnum "denominator") as (de & Hde); [repeat constructor|].
  exists la, lf, lt, w, nu, de. split; [|done].
  apply map_eq. intros f. destruct (decide (f ∈ six_fields)) as [Hf|Hf].
  - apply six_fields_cases in Hf.
    destruct Hf as [-> | [-> | [-> | [-> | [-> | ->]]]]]; by etrans.
  - transitivity (@None value).
    + apply not_elem_of_dom. by rewrite Hdom.
    + symmetry. by apply not_elem_of_dom.
Qed.

Lemma record_locs_mk la lf lt w nu de :
  record_locs (mk_record la lf lt w nu de) = [la; lf; lt].
Proof. done. Qed.

(** ** One field *)

Lemma getfield_ok d roi f rec v :
  dict_get roi d = Some rec -> rec !! f = Some v -> getfield d roi f = Ok v.
Proof. unfold getfield. intros -> Hf; simpl. by rewrite Hf. Qed.

Lemma setfield_ok d roi f rec v :
  dict_get roi d = Some rec ->
  setfield roi f v d = Ok (dict_set roi (<[f := v]> rec) d).
Proof. unfold setfield. by intros ->. Qed.

Lemma iadd_arrays h l r a b :
  h !! l = Some a -> h !! r = Some b -> length b = length a ->
  iadd (VArr l) (VArr r) h = Ok (VArr l, <[l := zip_with num_add a b]> h).
Proof.
  intros Hl Hr Hlen. unfold iadd. rewrite Hl, Hr; simpl.
  rewrite Hlen, Nat.eqb_refl; simpl. by rewrite stretch_length.
Qed.

Lemma iadd_field_ok c A h roi f arec crec old rhs new h' :
  dict_get roi A = Some arec -> arec !! f = Some old ->
  dict_get roi c = Some crec -> crec !! f = Some rhs ->
  iadd old rhs h = Ok (new, h') ->
  iadd_field c roi f (A, h) = Ok (dict_set roi (<[f := new]> arec) A, h').
Proof.
  intros HA Hold Hc Hrhs Hadd. unfold iadd_field.
  rewrite (getfield_ok _ _ _ _ _ HA Hold), (getfield_ok _ _ _ _ _ Hc Hrhs).
  ret_step. rewrite Hadd. ret_step.
  by rewrite (setfield_ok _ _ _ _ _ HA).
Qed.

(** ** One key of [consolidate] *)

(** The key is new: the atlas gets a record with the six fields of the
    contribution, arrays by reference. *)
Lemma consolidate_roi_absent c A h roi crec avgr fz t w nu de :
  dict_get roi A = None ->
  dict_get roi c = Some crec ->
  crec !! "avgr" = Some avgr -> crec !! "fz" = Some fz ->
  crec !! "t" = Some t -> crec !! "network_weight" = Some w ->
  crec !! "numerator" = Some nu -> crec !! "denominator" = Some de ->
  consolidate_roi c roi (A, h)
  = Ok (A ++ [(roi,
         <["avgr" := avgr]> (<["fz" := fz]> (<["t" := t]>
         (<["network_weight" := w]> (<["numerator" := nu]>
         (<["denominator" := de]> ∅))))))], h).
Proof.
  intros HA Hc Havgr Hfz Ht Hw Hnu Hde. unfold consolidate_roi.
  cbn [fst snd]. rewrite (proj2 (dict_mem_false _ _) HA).
  rewrite (getfield_ok _ _ _ _ _ Hc Havgr), (getfield_ok _ _ _ _ _ Hc Hfz),
    (getfield_ok _ _ _ _ _ Hc Ht), (getfield_ok _ _ _ _ _ Hc Hw),
    (getfield_ok _ _ _ _ _ Hc Hnu), (getfield_ok _ _ _ _ _ Hc Hde).
  ret_step. by rewrite dict_set_absent.
Qed.

(** The key is in the atlas: the arrays of the atlas record are updated in
    place, its scalars are replaced by the sums.  The arrays of the
    contribution may be the very arrays of the atlas record, field by
    field, or others. *)
Lemma consolidate_roi_present c A h roi
    la lf lt w nu de la' lf' lt' w' nu' de' a f t a' f' t' :
  dict_get roi A = Some (mk_record la lf lt w nu de) ->
  dict_get roi c = Some (mk_record la' lf' lt' w' nu' de') ->
  h !! la = Some a -> h !! lf = Some f -> h !! lt = Some t ->
  h !! la' = Some a' -> h !! lf' = Some f' -> h !! lt' = Some t' ->
  length a' = length a -> length f' = length f -> length t' = length t ->
  la <> lf -> la <> lt -> lf <> lt ->
  lf' <> la -> lt' <> la -> lt' <> lf ->
  consolidate_roi c roi (A, h)
  = Ok (dict_set roi (mk_record la lf lt (w + w') (nu + nu') (de + de'))%num A,
        <[lt := zip_with num_add t t']>
          (<[lf := zip_with num_add f f']>
             (<[la := zip_with num_add a a']> h))).
Proof.
  intros HA Hc Ha Hf Ht Ha' Hf' Ht' La Lf Lt Naf Nat' Nft Nfa Nta Ntf.
  unfold consolidate_roi. cbn [fst snd].
  rewrite (proj2 (dict_mem_true _ _)) by (by rewrite HA).
  rewrite (iadd_field_ok c A h roi "avgr" _ _ _ _ _ _ HA eq_refl Hc eq_refl
             (iadd_arrays _ _ _ _ _ Ha Ha' La)).
  ret_step.
  set (h1 := <[la := zip_with num_add a a']> h).
  assert (Hf1 : h1 !! lf = Some f) by (by unfold h1; rewrite list_lookup_insert_ne).
  assert (Hf1' : h1 !! lf' = Some f') by (by unfold h1; rewrite list_lookup_insert_ne).
  rewrite (iadd_field_ok c _ h1 roi "fz" (mk_record la lf lt w nu de)
             _ _ _ _ _ (dict_get_set_eq _ _ _) eq_refl Hc eq_refl
             (iadd_arrays _ _ _ _ _ Hf1 Hf1' Lf)).
  ret_step. rewrite dict_set_set.
  set (h2 := <[lf := zip_with num_add f f']> h1).
  assert (Ht2 : h2 !! lt = Some t)
    by (by unfold h2, h1; rewrite !list_lookup_insert_ne).
  assert (Ht2' : h2 !! lt' = Some t')
    by (by unfold h2, h1; rewrite !list_lookup_insert_ne).
  rewrite (iadd_field_ok c _ h2 roi "t" (mk_record la lf lt w nu de)
             _ _ _ _ _ (dict_get_set_eq _ _ _) eq_refl Hc eq_refl
             (iadd_arrays _ _ _ _ _ Ht2 Ht2' Lt)).
  ret_step. rewrite dict_set_set.
  set (h3 := <[lt := zip_with num_add t t']> h2).
  rewrite (iadd_field_ok c _ h3 roi "network_weight"
             (mk_record la lf lt w nu de) _ _ _ _ _
             (dict_get_set_eq _ _ _) eq_refl Hc eq_refl eq_refl).
  ret_step. rewrite dict_set_set.
  rewrite (iadd_field_ok c _ h3 roi "numerator"
             (mk_record la lf lt (w + w')%num nu de) _ _ _ _ _
             (dict_get_set_eq _ _ _) eq_refl Hc eq_refl eq_refl).
  ret_step. rewrite dict_set_set.
  rewrite (iadd_field_ok c _ h3 roi "denominator"
             (mk_record la lf lt (w + w')%num (nu + nu')%num de) _ _ _ _ _
             (dict_get_set_eq _ _ _) eq_refl Hc eq_refl eq_refl).
  rewrite dict_set_set. reflexivity.
Qed.

Lemma mk_record_lookup la lf lt w nu de :
  mk_record la lf lt w nu de !! "avgr" = Some (VArr la) /\
  mk_record la lf lt w nu de !! "fz" = Some (VArr lf) /\
  mk_record la lf lt w nu de !! "t" = Some (VArr lt) /\
  mk_record la lf lt w nu de !! "network_weight" = Some (VNum w) /\
  mk_record la lf lt w nu de !! "numerator" = Some (VNum nu) /\
  mk_record la lf lt w nu de !! "denominator" = Some (VNum de).
Proof. done. Qed.

Lemma mk_record_lookup_other la lf lt w nu de (f : string) :
  f ∉ six_fields -> mk_record la lf lt w nu de !! f = None.
Proof. intros Hf. by apply not_elem_of_dom. Qed.

Lemma length_zip_with_same (u v : list num) :
  length v = length u -> length (zip_with num_add u v) = length u.
Proof. intros Hlen. rewrite length_zip_with. lia. Qed.

(** What one key of [consolidate] does when it is in the atlas, field by
    field. *)
Lemma consolidate_roi_step n c A h roi arec crec :
  dict_get roi A = Some arec -> dict_get roi c = Some crec ->
  record_ok n h arec -> record_ok n h crec ->
  NoDup (record_locs arec) ->
  (record_locs crec = record_locs arec \/ record_locs arec ## record_locs crec) ->
  exists arec' h',
    consolidate_roi c roi (A, h) = Ok (dict_set roi arec' A, h') /\
    record_locs arec' = record_locs arec /\
    record_ok n h' arec' /\
    heap_like h h' /\
    (forall l, l ∉ record_locs arec -> h' !! l = h !! l) /\
    (forall f, arec' !! f ≫= read h'
               = opt_add (arec !! f ≫= read h) (crec !! f ≫= read h)).
Proof.
  intros HA Hc Hoka Hokc Hnodup Halign.
  apply record_ok_mk in Hoka
    as (la & lf & lt & w & nu & de & -> & Oka & Okf & Okt).
  destruct Oka as (a & Ha & La), Okf as (f & Hf & Lf), Okt as (t & Ht & Lt).
  apply record_ok_mk in Hokc
    as (la' & lf' & lt' & w' & nu' & de' & -> & Oka' & Okf' & Okt').
  destruct Oka' as (a' & Ha' & La'), Okf' as (f' & Hf' & Lf'),
    Okt' as (t' & Ht' & Lt').
  rewrite !record_locs_mk in *.
  apply NoDup_cons in Hnodup as [Hla [Hlf _]%NoDup_cons].
  assert (Naf : la <> lf) by (intros ->; apply Hla; repeat constructor).
  assert (Nat' : la <> lt) by (intros ->; apply Hla; repeat constructor).
  assert (Nft : lf <> lt) by (intros ->; apply Hlf; repeat constructor).
  assert (lf' <> la /\ lt' <> la /\ lt' <> lf) as (Nfa & Nta & Ntf).
  { destruct Halign as [[= -> -> ->]|Hdisj]; [repeat split; congruence|].
    repeat split; intros E.
    - apply (Hdisj la); [|rewrite <-E]; repeat constructor.
    - apply (Hdisj la); [|rewrite <-E]; repeat constructor.
    - apply (Hdisj lf); [|rewrite <-E]; repeat constructor. }
  set (h1 := <[la := zip_with num_add a a']> h).
  set (h2 := <[lf := zip_with num_add f f']> h1).
  set (h3 := <[lt := zip_with num_add t t']> h2).
  assert (Hlike1 : heap_like h h1)
    by (apply (heap_like_insert _ _ a); [done|apply length_zip_with_same; lia]).
  assert (Hf1 : h1 !! lf = Some f)
    by (by unfold h1; rewrite list_lookup_insert_ne).
  assert (Hlike2 : heap_like h1 h2)
    by (apply (heap_like_insert _ _ f); [done|apply length_zip_with_same; lia]).
  assert (Ht2 : h2 !! lt = Some t)
    by (by unfold h2, h1; rewrite !list_lookup_insert_ne).
  assert (Hlike3 : heap_like h2 h3)
    by (apply (heap_like_insert _ _ t); [done|apply length_zip_with_same; lia]).
  assert (Hlike : heap_like h h3)
    by (eapply heap_like_trans; [|exact Hlike3];
        eapply heap_like_trans; [exact Hlike1|exact Hlike2]).
  assert (Ha3 : h3 !! la = Some (zip_with num_add a a')).
  { unfold h3, h2. rewrite !list_lookup_insert_ne by done.
    unfold h1. apply list_lookup_insert_eq. by eapply lookup_lt_Some. }
  assert (Hf3 : h3 !! lf = Some (zip_with num_add f f')).
  { unfold h3. rewrite list_lookup_insert_ne by done.
    unfold h2. apply list_lookup_insert_eq. by eapply lookup_lt_Some. }
  assert (Ht3 : h3 !! lt = Some (zip_with num_add t t')).
  { unfold h3. apply list_lookup_insert_eq. by eapply lookup_lt_Some. }
  exists (mk_record la lf lt (w + w') (nu + nu') (de + de'))%num, h3.
  split; [|split; [done|split; [|split; [done|split]]]].
  - apply (consolidate_roi_present c A h roi la lf lt w nu de
             la' lf' lt' w' nu' de' a f t a' f' t'); (done || lia).
  - apply mk_record_ok; eexists; (split; [eassumption|]);
      rewrite length_zip_with_same; lia.
  - intros l. rewrite !not_elem_of_cons. intros (? & ? & ? & _).
    unfold h3, h2, h1. by rewrite !list_lookup_insert_ne.
  - intros fd. destruct (decide (fd ∈ six_fields)) as [Hfd|Hfd].
    + apply six_fields_cases in Hfd.
      pose proof (mk_record_lookup la lf lt w nu de) as (E1 & E2 & E3 & E4 & E5 & E6).
      pose proof (mk_record_lookup la' lf' lt' w' nu' de')
        as (E1' & E2' & E3' & E4' & E5' & E6').
      pose proof (mk_record_lookup la lf lt (w + w') (nu + nu') (de + de'))%num
        as (S1 & S2 & S3 & S4 & S5 & S6).
      destruct Hfd as [-> | [-> | [-> | [-> | [-> | ->]]]]];
        rewrite ?E1, ?E2, ?E3, ?E4, ?E5, ?E6, ?E1', ?E2', ?E3', ?E4', ?E5',
          ?E6', ?S1, ?S2, ?S3, ?S4, ?S5, ?S6; simpl;
        rewrite ?Ha3, ?Hf3, ?Ht3, ?Ha, ?Hf, ?Ht, ?Ha', ?Hf', ?Ht'; done.
    + by rewrite !mk_record_lookup_other.
Qed.

(** What it does when the key is new. *)
Lemma consolidate_roi_step_absent n c A h roi crec :
  dict_get roi A = None -> dict_get roi c = Some crec ->
  record_ok n h crec ->
  consolidate_roi c roi (A, h) = Ok (A ++ [(roi, crec)], h).
Proof.
  intros HA Hc Hok.
  apply record_ok_mk in Hok as (la & lf & lt & w & nu & de & -> & _).
  by rewrite (consolidate_roi_absent c A h roi _ (VArr la) (VArr lf) (VArr lt)
                (VNum w) (VNum nu) (VNum de) HA Hc).
Qed.

(** ** The arrays of a dictionary *)

Lemma locs_at_cons k0 r0 d k :
  locs_at ((k0, r0) :: d) k
  = if decide (k = k0) then record_locs r0 else locs_at d k.
Proof. unfold locs_at; simpl. by destruct (decide (k = k0)). Qed.

Lemma locs_at_dict_locs d k l : l ∈ locs_at d k -> l ∈ dict_locs d.
Proof.
  induction d as [|[k0 r0] d IH]; [by intros ?%elem_of_nil|].
  rewrite locs_at_cons. unfold dict_locs; simpl. rewrite elem_of_app.
  destruct (decide (k = k0)); [by left|]. right. by apply IH.
Qed.

Lemma dict_locs_locs_at d l :
  NoDup (dict_keys d) -> l ∈ dict_locs d ->
  exists k, is_Some (dict_get k d) /\ l ∈ locs_at d k.
Proof.
  induction d as [|[k0 r0] d IH]; [by intros _ ?%elem_of_nil|].
  simpl. intros [Hk0 Hd]%NoDup_cons. unfold dict_locs; simpl.
  rewrite elem_of_app. intros [Hl|Hl].
  - exists k0. rewrite locs_at_cons, !decide_True by done. eauto.
  - destruct (IH Hd Hl) as (k & Hk & Hlk). exists k.
    assert (k <> k0).
    { intros ->. destruct Hk as [r Hr]. apply Hk0.
      by eapply dict_get_Some_keys. }
    rewrite locs_at_cons, !decide_False by done. done.
Qed.

Lemma locs_at_disjoint d k k' :
  NoDup (dict_locs d) -> k <> k' -> locs_at d k ## locs_at d k'.
Proof.
  induction d as [|[k0 r0] d IH]; [by intros _ _ l ?%elem_of_nil|].
  unfold dict_locs; simpl. intros (Hr0 & Hdisj & Hd)%NoDup_app Hne.
  rewrite !locs_at_cons. intros l.
  destruct (decide (k = k0)) as [->|], (decide (k' = k0)) as [->|];
    try done.
  - intros Hl Hl'%locs_at_dict_locs. by eapply Hdisj.
  - intros Hl%locs_at_dict_locs Hl'. by eapply Hdisj.
  - by apply IH.
Qed.

Lemma locs_at_NoDup d k : NoDup (dict_locs d) -> NoDup (locs_at d k).
Proof.
  induction d as [|[k0 r0] d IH]; [intros _; apply NoDup_nil_2|].
  unfold dict_locs; simpl. intros (Hr0 & _ & Hd)%NoDup_app.
  rewrite locs_at_cons. destruct (decide (k = k0)); auto.
Qed.

Lemma locs_at_get d k rec :
  dict_get k d = Some rec -> locs_at d k = record_locs rec.
Proof. unfold locs_at. by intros ->. Qed.


Lemma dict_locs_set_present d k r r' :
  dict_get k d = Some r -> record_locs r' = record_locs r ->
  dict_locs (dict_set k r' d) = dict_locs d.
Proof.
  intros Hget Hlocs. induction d as [|[k0 r0] d IH]; simpl in *; [done|].
  destruct (decide (k = k0)) as [->|Hne]; unfold dict_locs in *; simpl.
  - injection Hget as ->. by rewrite Hlocs.
  - by rewrite IH.
Qed.

Lemma dict_locs_snoc d k r :
  dict_locs (d ++ [(k, r)]) = dict_locs d ++ record_locs r.
Proof. unfold dict_locs. rewrite flat_map_app; simpl. by rewrite app_nil_r. Qed.

Lemma locs_at_set d k r k' :
  locs_at (dict_set k r d) k'
  = if decide (k = k') then record_locs r else locs_at d k'.
Proof.
  unfold locs_at. destruct (decide (k = k')) as [->|Hne].
  - by rewrite dict_get_set_eq.
  - by rewrite dict_get_set_ne.
Qed.

Lemma flat_map_ext_elem {X Y} (f g : X -> list Y) (l : list X) :
  (forall x, x ∈ l -> f x = g x) -> flat_map f l = flat_map g l.
Proof.
  induction l as [|x l IH]; intros Hfg; simpl; [done|].
  rewrite Hfg, IH; [done| |by left]. intros y Hy. apply Hfg. by right.
Qed.

Lemma flat_map_locs_at_keys d :
  NoDup (dict_keys d) -> flat_map (locs_at d) (dict_keys d) = dict_locs d.
Proof.
  induction d as [|[k0 r0] d IH]; [done|].
  simpl. intros [Hk0 Hd]%NoDup_cons. unfold dict_locs in *; simpl.
  rewrite locs_at_cons, decide_True by done. f_equal.
  rewrite <-IH by done. apply flat_map_ext_elem.
  intros k Hk. rewrite locs_at_cons, decide_False; [done|].
  by intros ->.
Qed.

Lemma dict_ok_get n h d k rec :
  dict_ok n h d -> dict_get k d = Some rec -> record_ok n h rec.
Proof.
  intros [_ Hrecs] Hget%dict_get_elem.
  rewrite Forall_forall in Hrecs. by apply (Hrecs (k, rec)).
Qed.

(** ** Reading through an unchanged part of the store *)

Lemma read_agree n h h' rec f :
  record_ok n h rec ->
  (forall l, l ∈ record_locs rec -> h' !! l = h !! l) ->
  rec !! f ≫= read h' = rec !! f ≫= read h.
Proof.
  intros (la & lf & lt & w & nu & de & -> & _)%record_ok_mk Hagree.
  rewrite record_locs_mk in Hagree.
  destruct (decide (f ∈ six_fields)) as [Hf|Hf].
  - pose proof (mk_record_lookup la lf lt w nu de)
      as (E1 & E2 & E3 & E4 & E5 & E6).
    apply six_fields_cases in Hf.
    destruct Hf as [-> | [-> | [-> | [-> | [-> | ->]]]]];
      rewrite ?E1, ?E2, ?E3, ?E4, ?E5, ?E6; simpl; try done;
      rewrite Hagree; try done; repeat constructor.
  - by rewrite mk_record_lookup_other.
Qed.

Lemma peek_agree n h h' d roi f :
  dict_ok n h d ->
  (forall l, l ∈ locs_at d roi -> h' !! l = h !! l) ->
  peek h' d roi f = peek h d roi f.
Proof.
  intros Hok Hagree. unfold peek.
  destruct (dict_get roi d) as [rec|] eqn:Hget; simpl; [|done].
  eapply read_agree; [by eapply dict_ok_get|].
  by rewrite <-(locs_at_get _ _ _ Hget).
Qed.

Lemma peek_get h d roi f rec :
  dict_get roi d = Some rec -> peek h d roi f = rec !! f ≫= read h.
Proof. unfold peek. by intros ->. Qed.

Lemma peek_absent h d roi f : dict_get roi d = None -> peek h d roi f = None.
Proof. unfold peek. by intros ->. Qed.

Lemma elem_of_flat_map {X Y} (f : X -> list Y) (l : list X) (x : X) (y : Y) :
  x ∈ l -> y ∈ f x -> y ∈ flat_map f l.
Proof.
  intros Hx Hy. apply list_elem_of_In, in_flat_map.
  exists x. by rewrite <-!list_elem_of_In.
Qed.

Lemma peek_set_ne h d k r roi f :
  k <> roi -> peek h (dict_set k r d) roi f = peek h d roi f.
Proof. intros Hne. unfold peek. by rewrite dict_get_set_ne. Qed.

(** ** The loop of [consolidate]

    The keys [ks] still to go are keys of the contribution [c] with
    records of the data model.  No array is shared between two records of
    the atlas, between two of the records of [c] still to go, or between
    a record of the atlas and one of [c] under another key; under the
    same key the two records hold the same arrays or have none in
    common. *)
Lemma consolidate_loop n c ks : forall A h,
  NoDup ks ->
  dict_ok n h A -> NoDup (dict_locs A) ->
  (forall k, k ∈ ks ->
     exists crec, dict_get k c = Some crec /\ record_ok n h crec) ->
  NoDup (flat_map (locs_at c) ks) ->
  (forall k k', k ∈ ks -> k' <> k -> locs_at A k' ## locs_at c k) ->
  (forall k, k ∈ ks ->
     locs_at c k = locs_at A k \/ locs_at A k ## locs_at c k) ->
  exists A' h',
    for_each (consolidate_roi c) ks (A, h) = Ok (A', h') /\
    dict_ok n h' A' /\ NoDup (dict_locs A') /\
    (forall l, l ∈ dict_locs A' ->
       l ∈ dict_locs A \/ l ∈ flat_map (locs_at c) ks) /\
    heap_like h h' /\
    (forall l, l ∉ flat_map (locs_at A) ks -> h' !! l = h !! l) /\
    (forall roi, is_Some (dict_get roi A')
                 <-> is_Some (dict_get roi A) \/ roi ∈ ks) /\
    (forall roi f, roi ∈ ks ->
       peek h' A' roi f = opt_add (peek h A roi f) (peek h c roi f)) /\
    (forall roi f, roi ∉ ks -> peek h' A' roi f = peek h A roi f).
Proof.
  induction ks as [|k ks IH]; intros A h Hks HokA HndA Hc Hndc Hcross Hsame.
  { exists A, h. split; [done|]. split; [done|]. split; [done|].
    split; [by left|]. split; [apply heap_like_refl|]. split; [done|].
    split; [|split; [by intros ? ? ?%elem_of_nil|done]].
    intros roi. split; [by left|]. by intros [?|?%elem_of_nil]. }
  apply NoDup_cons in Hks as [Hk Hks].
  destruct (Hc k) as (crec & Hgetc & Hokc); [by left|].
  simpl in Hndc. apply NoDup_app in Hndc as (Hndk & Hdisjk & Hndc).
  rewrite (locs_at_get _ _ _ Hgetc) in Hndk, Hdisjk.
  assert (Hc' : forall k2, k2 ∈ ks -> forall h1, heap_like h h1 ->
            exists crec2, dict_get k2 c = Some crec2 /\ record_ok n h1 crec2).
  { intros k2 Hk2 h1 Hlike. destruct (Hc k2) as (crec2 & ? & ?); [by right|].
    exists crec2. split; [done|]. by eapply record_ok_heap_like. }
  cbn [for_each].
  destruct (dict_get k A) as [arec|] eqn:HgetA.
  - (* the key is in the atlas *)
    destruct (consolidate_roi_step n c A h k arec crec)
      as (arec' & h1 & Hstep & Hlocs' & Hok' & Hlike1 & Hunch1 & Hfields);
      [done|done|by eapply dict_ok_get|done| | |].
    { rewrite <-(locs_at_get _ _ _ HgetA). by apply locs_at_NoDup. }
    { destruct (Hsame k) as [Heq|Hdisj]; [by left| |].
      - left. by rewrite <-(locs_at_get _ _ _ HgetA),
                         <-(locs_at_get _ _ _ Hgetc).
      - right. by rewrite <-(locs_at_get _ _ _ HgetA),
                          <-(locs_at_get _ _ _ Hgetc). }
    rewrite Hstep. ret_step.
    set (A1 := dict_set k arec' A) in *.
    assert (HlocsA1 : forall k', locs_at A1 k' = locs_at A k').
    { intros k'. unfold A1. rewrite locs_at_set.
      destruct (decide (k = k')) as [<-|]; [|done].
      by rewrite Hlocs', (locs_at_get _ _ _ HgetA). }
    assert (HX : forall roi f, roi <> k -> peek h1 A1 roi f = peek h A roi f).
    { intros roi f Hne. unfold A1. rewrite peek_set_ne by done.
      apply (peek_agree n); [done|]. intros l Hl. apply Hunch1.
      rewrite <-(locs_at_get _ _ _ HgetA). intros Hl'.
      by apply (locs_at_disjoint A roi k HndA Hne l). }
    assert (HY : forall roi f, roi ∈ ks -> peek h1 c roi f = peek h c roi f).
    { intros roi f Hroi. destruct (Hc roi) as (crec2 & Hget2 & Hok2); [by right|].
      rewrite !(peek_get _ _ _ _ _ Hget2). apply (read_agree n); [done|].
      intros l Hl. apply Hunch1.
      rewrite <-(locs_at_get _ _ _ HgetA). intros Hl'.
      apply (Hcross roi k) with l; [by right|by intros ->|done|].
      by rewrite (locs_at_get _ _ _ Hget2). }
    destruct (IH A1 h1) as (A' & h' & Hrun & HokA' & HndA' & Hsub & Hlike
                             & Hunch & Hmem & Hin & Hout); try done.
    + split; [apply dict_set_keys_NoDup, HokA|].
      apply dict_set_Forall; [|exact Hok'].
      by apply (dict_ok_heap_like n h h1 A Hlike1).
    + unfold A1. by rewrite (dict_locs_set_present _ _ arec).
    + intros k2 Hk2. by apply Hc'.
    + intros k2 k' Hk2 Hne. rewrite HlocsA1. apply Hcross; [by right|done].
    + intros k2 Hk2. rewrite HlocsA1. apply Hsame. by right.
    + exists A', h'. split; [done|]. split; [done|]. split; [done|].
      split; [|split; [by eapply heap_like_trans|split; [|split; [|split]]]].
      * intros l Hl. destruct (Hsub l Hl) as [Hl1|Hl1].
        -- left. unfold A1 in Hl1.
           by rewrite (dict_locs_set_present _ _ arec) in Hl1.
        -- right. simpl. apply elem_of_app. by right.
      * intros l Hl. simpl in Hl. rewrite elem_of_app in Hl.
        rewrite Hunch, Hunch1; [done| |].
        -- rewrite <-(locs_at_get _ _ _ HgetA). tauto.
        -- rewrite (flat_map_ext _ _ HlocsA1). tauto.
      * intros roi. rewrite Hmem, elem_of_cons. unfold A1.
        destruct (decide (k = roi)) as [<-|Hne].
        -- rewrite dict_get_set_eq, HgetA. split; [intros _; left|]; eauto.
        -- rewrite dict_get_set_ne by done.
           split; [intros [?|?]; auto|intros [?|[?|?]]; auto; congruence].
      * intros roi f [->|Hroi]%elem_of_cons.
        -- rewrite Hout by done. unfold A1.
           rewrite (peek_get _ _ _ _ _ (dict_get_set_eq _ _ _)), Hfields.
           by rewrite (peek_get _ _ _ _ _ HgetA), (peek_get _ _ _ _ _ Hgetc).
        -- rewrite Hin, HX, HY by (done || by intros ->). done.
      * intros roi f [Hne Hroi]%not_elem_of_cons.
        by rewrite Hout, HX.
  - (* the key is new *)
    rewrite (consolidate_roi_step_absent n c A h k crec) by done. ret_step.
    rewrite <-(dict_set_absent k crec A) by done.
    set (A1 := dict_set k crec A) in *.
    assert (HlocsA1 : forall k', k' <> k -> locs_at A1 k' = locs_at A k').
    { intros k' Hne. unfold A1. rewrite locs_at_set.
      by rewrite decide_False by done. }
    assert (HX : forall roi f, roi <> k -> peek h A1 roi f = peek h A roi f).
    { intros roi f Hne. unfold A1. by rewrite peek_set_ne. }
    destruct (IH A1 h) as (A' & h' & Hrun & HokA' & HndA' & Hsub & Hlike
                            & Hunch & Hmem & Hin & Hout); try done.
    + split; [apply dict_set_keys_NoDup, HokA|].
      apply dict_set_Forall; [apply HokA|exact Hokc].
    + unfold A1. rewrite dict_set_absent, dict_locs_snoc by done.
      apply NoDup_app. split; [done|]. split; [|done].
      intros l Hl Hl'. destruct (dict_locs_locs_at A l) as (k' & Hk' & Hlk');
        [apply HokA|done|].
      apply (Hcross k k') with l; [by left| |done|].
      * intros ->. rewrite HgetA in Hk'. by destruct Hk'.
      * by rewrite (locs_at_get _ _ _ Hgetc).
    + intros k2 Hk2. apply Hc'; [done|apply heap_like_refl].
    + intros k2 k' Hk2 Hne. destruct (decide (k' = k)) as [->|Hne'].
      * unfold A1. rewrite locs_at_set, decide_True by done.
        intros l Hl Hl'. apply (Hdisjk l Hl). by eapply elem_of_flat_map.
      * rewrite HlocsA1 by done. apply Hcross; [by right|done].
    + intros k2 Hk2. rewrite HlocsA1 by (by intros ->).
      apply Hsame. by right.
    + exists A', h'. split; [done|]. split; [done|]. split; [done|].
      split; [|split; [done|split; [|split; [|split]]]].
      * intros l Hl. destruct (Hsub l Hl) as [Hl1|Hl1].
        -- unfold A1 in Hl1.
           rewrite dict_set_absent, dict_locs_snoc, elem_of_app in Hl1 by done.
           destruct Hl1 as [?|Hl1]; [by left|]. right. simpl.
           apply elem_of_app. left. by rewrite (locs_at_get _ _ _ Hgetc).
        -- right. simpl. apply elem_of_app. by right.
      * intros l Hl. simpl in Hl. rewrite elem_of_app in Hl.
        apply Hunch. rewrite (flat_map_ext_elem _ (locs_at A)); [tauto|].
        intros k2 Hk2. apply HlocsA1. by intros ->.
      * intros roi. rewrite Hmem, elem_of_cons. unfold A1.
        destruct (decide (k = roi)) as [<-|Hne].
        -- rewrite dict_get_set_eq. split; [intros _; right|]; eauto.
        -- rewrite dict_get_set_ne by done.
           split; [intros [?|?]; auto|intros [?|[?|?]]; auto; congruence].
      * intros roi f [->|Hroi]%elem_of_cons.
        -- rewrite Hout by done. unfold A1.
           rewrite (peek_get _ _ _ _ _ (dict_get_set_eq _ _ _)).
           by rewrite (peek_absent _ _ _ _ HgetA), (peek_get _ _ _ _ _ Hgetc).
        -- rewrite Hin, HX by (done || by intros ->). done.
      * intros roi f [Hne Hroi]%not_elem_of_cons.
        by rewrite Hout, HX.
Qed.

Lemma opt_add_None_r (a : option content) : opt_add a None = a.
Proof. by destruct a. Qed.

Lemma opt_add_self (a : option content) :
  opt_add a a = content_double <$> a.
Proof. by destruct a. Qed.

Lemma flat_map_locs_at_dict_locs d ks l :
  l ∈ flat_map (locs_at d) ks -> l ∈ dict_locs d.
Proof.
  intros (k & _ & Hl%list_elem_of_In)%list_elem_of_In%in_flat_map.
  by eapply locs_at_dict_locs.
Qed.

Lemma dict_get_keys_Some {V} (d : pydict V) k :
  k ∈ dict_keys d -> is_Some (dict_get k d).
Proof.
  intros Hk. destruct (dict_get k d) eqn:Hget; [eauto|].
  by apply dict_get_None in Hget.
Qed.

(** ** One call of [consolidate] *)

(** The contribution shares no array with the atlas. *)
Lemma consolidate_disjoint n c A h :
  dict_ok n h A -> dict_ok n h c ->
  NoDup (dict_locs A ++ dict_locs c) ->
  exists A' h',
    consolidate c A h = Ok (A', h') /\
    dict_ok n h' A' /\ NoDup (dict_locs A') /\
    (forall l, l ∈ dict_locs A' -> l ∈ dict_locs A \/ l ∈ dict_locs c) /\
    heap_like h h' /\
    (forall l, l ∉ dict_locs A -> h' !! l = h !! l) /\
    (forall roi, is_Some (dict_get roi A')
                 <-> is_Some (dict_get roi A) \/ is_Some (dict_get roi c)) /\
    (forall roi f,
       peek h' A' roi f = opt_add (peek h A roi f) (peek h c roi f)).
Proof.
  intros HokA Hokc (HndA & Hdisj & Hndc)%NoDup_app.
  destruct (consolidate_loop n c (dict_keys c) A h)
    as (A' & h' & Hrun & HokA' & HndA' & Hsub & Hlike & Hunch & Hmem
        & Hin & Hout); try done.
  - apply Hokc.
  - intros k [crec Hget]%dict_get_keys_Some. exists crec.
    split; [done|]. by eapply dict_ok_get.
  - rewrite flat_map_locs_at_keys; [done|apply Hokc].
  - intros k k' _ _ l Hl%locs_at_dict_locs Hl'%locs_at_dict_locs.
    by eapply Hdisj.
  - intros k _. right. intros l Hl%locs_at_dict_locs Hl'%locs_at_dict_locs.
    by eapply Hdisj.
  - exists A', h'. split; [done|]. split; [done|]. split; [done|].
    rewrite flat_map_locs_at_keys in Hsub by apply Hokc.
    split; [done|]. split; [done|]. split; [|split].
    + intros l Hl. apply Hunch. intros Hl'%flat_map_locs_at_dict_locs. done.
    + intros roi. rewrite Hmem. split; (intros [?|Hk]; [by left|right]).
      * by apply dict_get_keys_Some.
      * destruct Hk as [r Hr]. by eapply dict_get_Some_keys.
    + intros roi f. destruct (decide (roi ∈ dict_keys c)) as [Hk|Hk].
      * by apply Hin.
      * rewrite Hout by done.
        rewrite (peek_absent h c) by (by apply dict_get_None).
        by rewrite opt_add_None_r.
Qed.

(** The contribution is the atlas itself: same records, same arrays. *)
Lemma consolidate_self n c h :
  dict_ok n h c -> NoDup (dict_locs c) ->
  exists A' h',
    consolidate c c h = Ok (A', h') /\
    (forall roi, is_Some (dict_get roi A') <-> is_Some (dict_get roi c)) /\
    (forall roi f, peek h' A' roi f = content_double <$> peek h c roi f).
Proof.
  intros Hokc Hndc.
  destruct (consolidate_loop n c (dict_keys c) c h)
    as (A' & h' & Hrun & HokA' & HndA' & Hsub & Hlike & Hunch & Hmem
        & Hin & Hout); try done.
  - apply Hokc.
  - intros k [crec Hget]%dict_get_keys_Some. exists crec.
    split; [done|]. by eapply dict_ok_get.
  - rewrite flat_map_locs_at_keys; [done|apply Hokc].
  - intros k k' _ Hne. by apply locs_at_disjoint.
  - intros k _. by left.
  - exists A', h'. split; [done|]. split.
    + intros roi. rewrite Hmem. split; [|by left].
      intros [?|Hk]; [done|]. by apply dict_get_keys_Some.
    + intros roi f. destruct (decide (roi ∈ dict_keys c)) as [Hk|Hk].
      * by rewrite Hin, opt_add_self.
      * rewrite Hout by done.
        by rewrite (peek_absent h c) by (by apply dict_get_None).
Qed.

(** ** Consolidating into an atlas without the keys *)

Lemma consolidate_fresh_loop c h d : forall A,
  NoDup (dict_keys d) ->
  (forall k, k ∈ dict_keys d -> dict_get k A = None) ->
  Forall (fun kr => dict_get kr.1 c = Some kr.2 /\ six_fields ⊆ dom kr.2) d ->
  exists d',
    for_each (consolidate_roi c) (dict_keys d) (A, h) = Ok (A ++ d', h) /\
    Forall2 (fun kr kr' =>
               kr'.1 = kr.1 /\ dom kr'.2 = six_fields /\
               forall f, f ∈ six_fields -> kr'.2 !! f = kr.2 !! f) d d'.
Proof.
  induction d as [|[k rec] d IH]; intros A Hnd Hfresh Hd.
  { exists []. by rewrite app_nil_r. }
  simpl in Hnd. apply NoDup_cons in Hnd as [Hk Hnd].
  apply Forall_cons in Hd as [[Hget Hdom] Hd]. simpl in Hget, Hdom.
  assert (Hfield : forall f, f ∈ six_fields -> is_Some (rec !! f)).
  { intros f Hf. apply elem_of_dom. by apply Hdom. }
  destruct (Hfield "avgr") as [avgr Havgr]; [done|].
  destruct (Hfield "fz") as [fz Hfz]; [done|].
  destruct (Hfield "t") as [t Ht]; [done|].
  destruct (Hfield "network_weight") as [w Hw]; [done|].
  destruct (Hfield "numerator") as [nu Hnu]; [done|].
  destruct (Hfield "denominator") as [de Hde]; [done|].
  cbn [dict_keys map fst for_each].
  rewrite (consolidate_roi_absent c A h k rec avgr fz t w nu de);
    try done; [|apply Hfresh; by left].
  ret_step.
  match goal with |- context [A ++ [(k, ?r)]] => set (lit := r) end.
  destruct (IH (A ++ [(k, lit)])) as (d' & Hrun & Hd'); [done| |done|].
  { intros k2 Hk2. rewrite <-dict_set_absent by (apply Hfresh; by left).
    rewrite dict_get_set_ne by (by intros ->). apply Hfresh. by right. }
  exists ((k, lit) :: d'). split.
  - fold (dict_keys d). by rewrite Hrun, <-app_assoc.
  - constructor; [|done]. simpl. split; [done|]. split; [done|].
    intros f Hf%six_fields_cases.
    destruct Hf as [-> | [-> | [-> | [-> | [-> | ->]]]]]; by symmetry.
Qed.

Lemma Forall_dict_get {V} (d : pydict V) :
  NoDup (dict_keys d) -> Forall (fun kr => dict_get kr.1 d = Some kr.2) d.
Proof.
  intros Hnd. apply Forall_forall. intros [k v] Hkv. by apply dict_elem_get.
Qed.

Lemma consolidate_fresh c h :
  NoDup (dict_keys c) ->
  Forall (fun kr => six_fields ⊆ dom kr.2) c ->
  exists A,
    consolidate c [] h = Ok (A, h) /\
    Forall2 (fun kr kr' =>
               kr'.1 = kr.1 /\ dom kr'.2 = six_fields /\
               forall f, f ∈ six_fields -> kr'.2 !! f = kr.2 !! f) c A.
Proof.
  intros Hnd Hsix.
  destruct (consolidate_fresh_loop c h c []) as (A & Hrun & HA); try done.
  - pose proof (Forall_dict_get c Hnd) as Hget.
    rewrite Forall_forall in Hget, Hsix. apply Forall_forall. auto.
  - by exists A.
Qed.

(** For records with exactly the six fields the new atlas is the
    contribution. *)
Lemma consolidate_fresh_ok n c h :
  dict_ok n h c -> consolidate c [] h = Ok (c, h).
Proof.
  intros [Hnd Hrecs].
  destruct (consolidate_fresh c h) as (A & Hrun & HA); [done| |].
  { eapply Forall_impl; [exact Hrecs|]. intros kr (Hdom & _). by rewrite Hdom. }
  rewrite Hrun. do 2 f_equal. symmetry.
  clear Hrun Hnd. induction HA as [|[k r] [k' r'] c A (Hk & Hdom & Hf) HA IH];
    [done|].
  apply Forall_cons in Hrecs as [(Hdomr & _) Hrecs]. simpl in *.
  rewrite IH by done. do 2 f_equal; [done|].
  apply map_eq. intros f. destruct (decide (f ∈ six_fields)) as [Hin|Hin].
  - by rewrite Hf.
  - transitivity (@None value); [|symmetry]; apply not_elem_of_dom; congruence.
Qed.

(** C4: consolidating a contribution whose records have the six fields
    into an empty atlas gives an atlas with one entry per ROI key of the
    contribution, with exactly the six fields, each holding what the
    contribution holds there (for an array, the same array object); the
    store is unchanged. *)
Theorem consolidate_into_empty (c : pydict (gmap string value))
    (h : list (list num)) :
  NoDup (dict_keys c) ->
  Forall (fun kr => six_fields ⊆ dom kr.2) c ->
  exists A,
    consolidate c [] h = Ok (A, h) /\
    dict_keys A = dict_keys c /\
    forall roi rec, dict_get roi c = Some rec ->
      exists rec', dict_get roi A = Some rec' /\
                   dom rec' = six_fields /\
                   forall f, f ∈ six_fields -> rec' !! f = rec !! f.
Proof.
  intros Hnd Hsix. destruct (consolidate_fresh c h Hnd Hsix) as (A & Hrun & HA).
  exists A. split; [done|]. clear Hrun Hsix Hnd.
  induction HA as [|[k r] [k' r'] c A (Hk & Hdom & Hf) HA [IHk IHget]];
    [done|]. simpl in *. subst k'. split; [by rewrite IHk|].
  intros roi rec. destruct (decide (roi = k)) as [->|Hne]; [|by apply IHget].
  intros [= <-]. by exists r'.
Qed.

(** C5, for a contribution whose arrays are distinct objects: consolidating
    it twice, starting from the empty atlas, leaves under every ROI key and
    field twice what the contribution held before the two calls; nothing is
    deduplicated.  The second call doubles the arrays of the contribution
    in place, since the atlas holds the very same arrays. *)
Theorem consolidate_twice_doubles (n : nat) (c : pydict (gmap string value))
    (h : list (list num)) :
  dict_ok n h c -> NoDup (dict_locs c) ->
  exists A1 h1 A2 h2,
    consolidate c [] h = Ok (A1, h1) /\
    consolidate c A1 h1 = Ok (A2, h2) /\
    (forall roi, dict_mem roi A2 = dict_mem roi c) /\
    (forall roi f, peek h2 A2 roi f = content_double <$> peek h c roi f).
Proof.
  intros Hok Hnd.
  destruct (consolidate_self n c h Hok Hnd) as (A2 & h2 & Hrun & Hmem & Hpeek).
  exists c, h, A2, h2. split; [by eapply consolidate_fresh_ok|].
  split; [done|]. split; [|done].
  intros roi. specialize (Hmem roi). unfold dict_mem.
  by apply bool_decide_ext.
Qed.

End store_facts.

(** ** Sums of contents *)

Section content_algebra.
Context {exact : Exact}.
Add Ring num_ring_content : num_ring.

Lemma content_add_comm (a b : content) : content_add a b = content_add b a.
Proof.
  destruct a as [u|x], b as [v|y]; simpl; f_equal.
  - revert v; induction u as [|? u IH]; intros [|? v]; simpl; try done.
    f_equal; [ring|apply IH].
  - induction u as [|? u IH]; simpl; [done|]. f_equal; [ring|apply IH].
  - induction v as [|? v IH]; simpl; [done|]. f_equal; [ring|apply IH].
  - ring.
Qed.

Lemma content_add_assoc (a b c : content) :
  content_add a (content_add b c) = content_add (content_add a b) c.
Proof.
  destruct a as [u|x], b as [v|y], c as [w|z]; simpl; f_equal.
  - revert v w; induction u as [|? u IH]; intros [|? v] [|? w]; simpl;
      try done. f_equal; [ring|apply IH].
  - revert v; induction u as [|? u IH]; intros [|? v]; simpl; try done.
    f_equal; [ring|apply IH].
  - revert w; induction u as [|? u IH]; intros [|? w]; simpl; try done.
    f_equal; [ring|apply IH].
  - induction u as [|? u IH]; simpl; [done|]. f_equal; [ring|apply IH].
  - revert w; induction v as [|? v IH]; intros [|? w]; simpl; try done.
    f_equal; [ring|apply IH].
  - induction v as [|? v IH]; simpl; [done|]. f_equal; [ring|apply IH].
  - induction w as [|? w IH]; simpl; [done|]. f_equal; [ring|apply IH].
  - ring.
Qed.

Lemma opt_add_comm (a b : option content) : opt_add a b = opt_add b a.
Proof. destruct a, b; simpl; try done. by rewrite content_add_comm. Qed.

Lemma opt_add_assoc (a b c : option content) :
  opt_add a (opt_add b c) = opt_add (opt_add a b) c.
Proof. destruct a, b, c; simpl; try done. by rewrite content_add_assoc. Qed.


(** The running sum does not depend on the order of the summands. *)
Lemma foldl_opt_add_perm (l l' : list (option content)) :
  l ≡ₚ l' -> forall a, foldl opt_add a l = foldl opt_add a l'.
Proof.
  induction 1 as [|x l l' _ IH|x y l|l l' l'' _ IH1 _ IH2]; intros a; simpl.
  - done.
  - apply IH.
  - f_equal. rewrite <-!opt_add_assoc. f_equal. apply opt_add_comm.
  - by rewrite IH1.
Qed.

Lemma foldl_opt_add_start (l : list (option content)) (a : option content) :
  foldl opt_add a l = opt_add a (foldl opt_add None l).
Proof.
  revert a; induction l as [|x l IH]; intros a; simpl.
  - by rewrite opt_add_None_r.
  - rewrite IH, (IH x). apply eq_sym, opt_add_assoc.
Qed.

(** Summing group by group and then the group sums is summing all. *)
Lemma foldl_opt_add_concat (ls : list (list (option content))) :
  foldl opt_add None (map (foldl opt_add None) ls)
  = foldl opt_add None (concat ls).
Proof.
  induction ls as [|l ls IH] using rev_ind; [done|].
  rewrite map_app, concat_app, !foldl_app; simpl.
  rewrite app_nil_r, IH. symmetry. apply foldl_opt_add_start.
Qed.

End content_algebra.

(** ** Sequences of contributions *)

Section sequences.
Context {exact : Exact}.
Implicit Types (h : list (list num)) (d c A : pydict (gmap string value)).
Implicit Types (cs : list (pydict (gmap string value))).

Lemma dict_locs_elem cs c l :
  c ∈ cs -> l ∈ dict_locs c -> l ∈ flat_map dict_locs cs.
Proof. apply elem_of_flat_map. Qed.

(** The contributions share no array, neither with each other nor with
    the atlas: the running atlas holds, under every key and field, the
    sum of what was there and of what the contributions held. *)
Lemma consolidate_all_disjoint n cs : forall A h,
  dict_ok n h A -> Forall (dict_ok n h) cs ->
  NoDup (dict_locs A ++ flat_map dict_locs cs) ->
  exists A' h',
    consolidate_all cs (A, h) = Ok (A', h') /\
    dict_ok n h' A' /\ NoDup (dict_locs A') /\
    (forall l, l ∈ dict_locs A' ->
       l ∈ dict_locs A \/ l ∈ flat_map dict_locs cs) /\
    heap_like h h' /\
    (forall l, l ∉ dict_locs A ++ flat_map dict_locs cs -> h' !! l = h !! l) /\
    (forall roi f,
       peek h' A' roi f
       = foldl opt_add (peek h A roi f) (map (fun c => peek h c roi f) cs)).
Proof.
  induction cs as [|c cs IH]; intros A h HokA Hokcs Hnd.
  { rewrite app_nil_r in Hnd. exists A, h. split; [done|].
    split; [done|]. split; [done|]. split; [by left|].
    split; [apply heap_like_refl|]. done. }
  apply Forall_cons in Hokcs as [Hokc Hokcs].
  simpl in Hnd. rewrite app_assoc in Hnd.
  apply NoDup_app in Hnd as (HndAc & Hdisj & Hndcs).
  destruct (consolidate_disjoint n c A h HokA Hokc HndAc)
    as (A1 & h1 & Hrun1 & HokA1 & HndA1 & Hsub1 & Hlike1 & Hunch1 & _ & Hpeek1).
  assert (HinAc : forall l, l ∈ dict_locs A1 -> l ∈ dict_locs A ++ dict_locs c).
  { intros l Hl. apply elem_of_app. by apply Hsub1. }
  destruct (IH A1 h1) as (A' & h' & Hrun & HokA' & HndA' & Hsub & Hlike
                           & Hunch & Hpeek).
  - done.
  - eapply Forall_impl; [exact Hokcs|]. intros c2.
    by apply dict_ok_heap_like.
  - apply NoDup_app. split; [done|]. split; [|done].
    intros l Hl. apply Hdisj. by apply HinAc.
  - exists A', h'. unfold consolidate_all in *. cbn [for_each fst snd].
    rewrite Hrun1. ret_step. split; [done|]. split; [done|]. split; [done|].
    split; [|split; [by eapply heap_like_trans|split]].
    + intros l Hl. simpl. rewrite elem_of_app.
      destruct (Hsub l Hl) as [Hl1|?]; [|by auto].
      destruct (Hsub1 l Hl1); auto.
    + intros l Hl. simpl in Hl. rewrite !elem_of_app in Hl.
      rewrite Hunch, Hunch1; [done|tauto|].
      rewrite elem_of_app. intros [Hl1%HinAc%elem_of_app|?]; tauto.
    + intros roi f. rewrite Hpeek, Hpeek1. simpl. f_equal.
      apply map_ext_in. intros c2 Hc2%list_elem_of_In.
      rewrite Forall_forall in Hokcs.
      apply (peek_agree n); [by apply Hokcs|].
      intros l Hl%locs_at_dict_locs. apply Hunch1. intros HlA.
      apply (Hdisj l); [apply elem_of_app; by left|].
      by eapply dict_locs_elem.
Qed.

Lemma dict_ok_nil n h : dict_ok n h [].
Proof. split; [apply NoDup_nil_2|done]. Qed.

(** From the empty atlas: the sum of what the contributions held. *)
Lemma consolidate_all_total n cs h :
  Forall (dict_ok n h) cs -> NoDup (flat_map dict_locs cs) ->
  exists a h',
    consolidate_all cs ([], h) = Ok (a, h') /\
    dict_ok n h' a /\ NoDup (dict_locs a) /\
    (forall l, l ∈ dict_locs a -> l ∈ flat_map dict_locs cs) /\
    heap_like h h' /\
    (forall l, l ∉ flat_map dict_locs cs -> h' !! l = h !! l) /\
    (forall roi f,
       peek h' a roi f
       = foldl opt_add None (map (fun c => peek h c roi f) cs)).
Proof.
  intros Hok Hnd.
  destruct (consolidate_all_disjoint n cs [] h (dict_ok_nil n h) Hok Hnd)
    as (a & h' & Hrun & Hoka & Hnda & Hsub & Hlike & Hunch & Hpeek).
  exists a, h'. repeat (split; [done|]). split; [|done].
  intros l Hl. destruct (Hsub l Hl) as [?%elem_of_nil|?]; done.
Qed.

Lemma NoDup_replace_sub {X} (xs gs rs ls : list X) :
  NoDup (xs ++ gs ++ rs) -> NoDup ls -> (forall l, l ∈ ls -> l ∈ gs) ->
  NoDup ((xs ++ ls) ++ rs).
Proof.
  intros (Hxs & Hx & (Hgs & Hg & Hrs)%NoDup_app)%NoDup_app Hls Hsub.
  apply NoDup_app. split; [apply NoDup_app; split; [done|split; [|done]]|].
  - intros l Hl Hl'. apply (Hx l Hl). apply elem_of_app. left. auto.
  - split; [|done]. intros l [Hl|Hl]%elem_of_app.
    + intros Hl'. apply (Hx l Hl). apply elem_of_app. by right.
    + apply Hg. auto.
Qed.

(** One atlas per group: each holds the sum of its group, and the atlases
    share no array. *)
Lemma consolidate_groups_loop n gs : forall atlases h,
  Forall (dict_ok n h) atlases -> Forall (dict_ok n h) (concat gs) ->
  NoDup (flat_map dict_locs atlases ++ flat_map dict_locs (concat gs)) ->
  exists atlases' h',
    for_each (fun g '(atlases, h) =>
        '(a, h) ← consolidate_all g ([], h);
        Ok (atlases ++ [a], h))
      gs (atlases, h) = Ok (atlases', h') /\
    Forall (dict_ok n h') atlases' /\
    NoDup (flat_map dict_locs atlases') /\
    (forall l, l ∈ flat_map dict_locs atlases' ->
       l ∈ flat_map dict_locs atlases \/ l ∈ flat_map dict_locs (concat gs)) /\
    heap_like h h' /\
    (forall l, l ∉ flat_map dict_locs (concat gs) -> h' !! l = h !! l) /\
    (forall roi f,
       map (fun a => peek h' a roi f) atlases'
       = map (fun a => peek h a roi f) atlases
         ++ map (fun g => foldl opt_add None (map (fun c => peek h c roi f) g))
              gs).
Proof.
  induction gs as [|g gs IH]; intros atlases h Hoka Hokg Hnd.
  { exists atlases, h. split; [done|]. split; [done|].
    split; [by apply NoDup_app in Hnd as (? & _ & _)|].
    split; [by left|]. split; [apply heap_like_refl|]. split; [done|].
    intros roi f. simpl. by rewrite app_nil_r. }
  simpl in Hokg, Hnd. apply Forall_app in Hokg as [Hokg Hokgs].
  rewrite flat_map_app in Hnd.
  assert (Hndg : NoDup (flat_map dict_locs g)).
  { by apply NoDup_app in Hnd as (_ & _ & (? & _ & _)%NoDup_app). }
  destruct (consolidate_all_total n g h Hokg Hndg)
    as (a & h1 & Hrun1 & Hoka1 & Hnda1 & Hsub1 & Hlike1 & Hunch1 & Hpeek1).
  destruct (IH (atlases ++ [a]) h1)
    as (atlases' & h' & Hrun & Hoka' & Hnda' & Hsub & Hlike & Hunch & Hpeek).
  - apply Forall_app. split; [|by constructor].
    eapply Forall_impl; [exact Hoka|]. intros a0. by apply dict_ok_heap_like.
  - eapply Forall_impl; [exact Hokgs|]. intros c. by apply dict_ok_heap_like.
  - rewrite flat_map_app; simpl. rewrite app_nil_r.
    by eapply NoDup_replace_sub.
  - exists atlases', h'. cbn [for_each]. rewrite Hrun1. ret_step.
    split; [done|]. split; [done|]. split; [done|].
    apply NoDup_app in Hnd as (Hndat & Hdisj & (_ & Hdisjg & _)%NoDup_app).
    split; [|split; [by eapply heap_like_trans|split]].
    + intros l Hl. simpl. rewrite flat_map_app, elem_of_app.
      destruct (Hsub l Hl) as [Hl1|?]; [|by auto].
      rewrite flat_map_app in Hl1; simpl in Hl1.
      rewrite app_nil_r, elem_of_app in Hl1.
      destruct Hl1 as [?|?%Hsub1]; auto.
    + intros l Hl. simpl in Hl. rewrite flat_map_app, elem_of_app in Hl.
      rewrite Hunch, Hunch1; tauto.
    + intros roi f. rewrite Hpeek, map_app; simpl. rewrite <-app_assoc; simpl.
      f_equal; [|f_equal; [apply Hpeek1|]].
      * apply map_ext_in. intros a0 Ha0%list_elem_of_In.
        rewrite Forall_forall in Hoka.
        apply (peek_agree n); [by apply Hoka|].
        intros l Hl%locs_at_dict_locs. apply Hunch1. intros Hlg.
        apply (Hdisj l); [by eapply dict_locs_elem|].
        apply elem_of_app. by left.
      * apply map_ext_in. intros g2 Hg2%list_elem_of_In. f_equal.
        apply map_ext_in. intros c Hc%list_elem_of_In.
        assert (Hcc : c ∈ concat gs).
        { apply list_elem_of_In, in_concat. exists g2.
          by rewrite <-!list_elem_of_In. }
        rewrite Forall_forall in Hokgs.
        apply (peek_agree n); [by apply Hokgs|].
        intros l Hl%locs_at_dict_locs. apply Hunch1. intros Hlg.
        apply (Hdisjg l Hlg). by eapply dict_locs_elem.
Qed.

Lemma consolidate_groups_total n gs h :
  Forall (dict_ok n h) (concat gs) ->
  NoDup (flat_map dict_locs (concat gs)) ->
  exists a h',
    consolidate_groups gs h = Ok (a, h') /\
    dict_ok n h' a /\
    (forall roi f,
       peek h' a roi f
       = foldl opt_add None (map (fun c => peek h c roi f) (concat gs))).
Proof.
  intros Hok Hnd.
  destruct (consolidate_groups_loop n gs [] h)
    as (atlases & h1 & Hrun1 & Hoka & Hnda & _ & _ & _ & Hpeek1); try done.
  destruct (consolidate_all_total n atlases h1 Hoka Hnda)
    as (a & h' & Hrun & Hoka' & _ & _ & _ & _ & Hpeek).
  exists a, h'. unfold consolidate_groups. rewrite Hrun1. ret_step.
  split; [done|]. split; [done|].
  intros roi f. rewrite Hpeek, Hpeek1; simpl.
  rewrite <-(map_map (map (fun c => peek h c roi f)) (foldl opt_add None)).
  rewrite foldl_opt_add_concat. f_equal. symmetry. apply concat_map.
Qed.

Lemma same_atlas_peek n a1 h1 a2 h2 :
  dict_ok n h1 a1 -> dict_ok n h2 a2 ->
  (forall roi f, peek h1 a1 roi f = peek h2 a2 roi f) ->
  same_atlas a1 h1 a2 h2.
Proof.
  intros Hok1 Hok2 Hpeek. split; [|done].
  assert (Hmem : forall n h a roi, dict_ok n h a ->
            dict_mem roi a = bool_decide (is_Some (peek h a roi "network_weight"))).
  { intros n' h a roi Hok. unfold dict_mem, peek. apply bool_decide_ext.
    destruct (dict_get roi a) as [rec|] eqn:Hget; simpl.
    - destruct (dict_ok_get _ _ _ _ _ Hok Hget) as (_ & _ & Hnum).
      destruct (Hnum "network_weight") as [x ->]; [repeat constructor|].
      simpl. split; eauto.
    - split; intros []; done. }
  intros roi. by rewrite (Hmem n h1), (Hmem n h2), Hpeek.
Qed.

(** C3, for contributions that share no array: consolidating them in any
    order, or in groups whose atlases are then consolidated, gives the same
    final atlas. *)
Theorem consolidate_order_free (n : nat) (h : list (list num))
    (cs cs' : list (pydict (gmap string value)))
    (gs : list (list (pydict (gmap string value)))) :
  Forall (dict_ok n h) cs ->
  NoDup (flat_map dict_locs cs) ->
  cs' ≡ₚ cs -> concat gs ≡ₚ cs ->
  exists a1 h1 a2 h2 a3 h3,
    consolidate_all cs ([], h) = Ok (a1, h1) /\
    consolidate_all cs' ([], h) = Ok (a2, h2) /\
    consolidate_groups gs h = Ok (a3, h3) /\
    same_atlas a1 h1 a2 h2 /\
    same_atlas a1 h1 a3 h3.
Proof.
  intros Hok Hnd Hperm Hgroups.
  destruct (consolidate_all_total n cs h Hok Hnd)
    as (a1 & h1 & Hrun1 & Hok1 & _ & _ & _ & _ & Hpeek1).
  destruct (consolidate_all_total n cs' h)
    as (a2 & h2 & Hrun2 & Hok2 & _ & _ & _ & _ & Hpeek2).
  { by rewrite Hperm. }
  { by rewrite (Permutation_flat_map dict_locs Hperm). }
  destruct (consolidate_groups_total n gs h)
    as (a3 & h3 & Hrun3 & Hok3 & Hpeek3).
  { by rewrite Hgroups. }
  { by rewrite (Permutation_flat_map dict_locs Hgroups). }
  exists a1, h1, a2, h2, a3, h3. repeat (split; [done|]).
  split; apply (same_atlas_peek n); try done; intros roi f.
  - rewrite Hpeek1, Hpeek2. apply foldl_opt_add_perm.
    symmetry. by apply Permutation_map.
  - rewrite Hpeek1, Hpeek3. apply foldl_opt_add_perm.
    symmetry. by apply Permutation_map.
Qed.

End sequences.

(** ** Loops *)

Ltac not_in_list :=
  let H := fresh "Hin" in
  intros H; repeat (apply elem_of_cons in H as [H|H]; [discriminate|]);
  by apply elem_of_nil in H.

Lemma for_each_invariant {S X} (body : X -> S -> result S)
    (Inv : S -> Prop) (Q : X -> S -> Prop) (xs : list X) :
  (forall x s s', x ∈ xs -> body x s = Ok s' -> Inv s ->
     Inv s' /\ Q x s' /\ forall y, Q y s -> Q y s') ->
  forall s s', for_each body xs s = Ok s' -> Inv s ->
    Inv s' /\ (forall x, x ∈ xs -> Q x s') /\ (forall y, Q y s -> Q y s').
Proof.
  induction xs as [|x xs IH]; intros Hstep s s'; simpl.
  - intros [= <-] Hinv. split; [done|]. split; [|done].
    by intros ? ?%elem_of_nil.
  - intros (s1 & Hbody & Hrest)%bind_Ok Hinv.
    destruct (Hstep x s s1) as (Hinv1 & Hq1 & Hpres1); [by left|done|done|].
    destruct (IH (fun y s s' Hy => Hstep y s s' (list_elem_of_further _ _ _ Hy))
                 s1 s' Hrest Hinv1) as (Hinv' & Hq' & Hpres').
    split; [done|]. split; [|by auto].
    intros y [->|Hy]%elem_of_cons; auto.
Qed.


(** ** The shape check *)

Section shape_check.
Context {exact : Exact}.

(** A loaded array of another shape than the configured one stops the
    round at once, whatever the shapes, with one and the same message. *)
Lemma process_chunk_type_shape_mismatch (w : world) (chunk : nat)
    (rois : list string) (cfg : config) (chunk_paths : gmap string string)
    (brain_weights chunk_weights : ndarray2 num)
    (brain_masks chunk_masks : ndarray2 bool)
    (norm_chunk_masks std_chunk_masks : ndarray2 num)
    (key label dir : string) (chunk_data : ndarray2 num)
    (st : pydict (gmap string value) * list (list num)) :
  chunk_paths !! key = Some dir ->
  np_load w dir chunk label = Ok chunk_data ->
  (shape0 chunk_data, shape1 chunk_data)
    <> (cfg_chunk_size cfg, cfg_brain_size cfg) ->
  process_chunk_type w chunk rois cfg chunk_paths brain_weights chunk_weights
    brain_masks chunk_masks norm_chunk_masks std_chunk_masks (key, label) st
  = Err (TypeError shape_message).
Proof.
  intros Hdir Hload Hshape. unfold process_chunk_type; cbn [fst snd].
  rewrite Hdir; simpl. rewrite Hload; simpl.
  by rewrite bool_decide_eq_false_2.
Qed.

End shape_check.

(** C2: with [brain_size = 3] configured, a chunk file of shape (4, 4) makes
    [process_chunk] fail with a [TypeError] before anything is computed from
    the file, and so does one of shape (2, 5).  The message is the text of
    the literal in both cases, braces included: it names neither the
    expected nor the actual shape. *)
Theorem process_chunk_shape_message :
  process_chunk Example.world_4x4 0 Example.rois Example.cfg []
  = Err (TypeError "Chunk expected to have shape {(config.get('chunk_size'), config.get('brain_size'))} but instead has shape {np.shape(chunk_data)}!") /\
  process_chunk Example.world_2x5 0 Example.rois Example.cfg []
  = process_chunk Example.world_4x4 0 Example.rois Example.cfg [].
Proof. split; reflexivity. Qed.

(** ** The weighted sums *)

Section kernel_compose.
Context {exact : Exact}.
Add Ring num_ring_compose : num_ring.

Lemma vsum_weighted (n : nat) (r v : list num) :
  length r = n -> length v = n ->
  vsum (zip_with num_mul r v) = sum_below n (fun j => item r j * item v j)%num.
Proof.
  intros Hr Hv. rewrite vsum_sum_below, length_zip_with, Hr, Hv, Nat.min_id.
  apply sum_over_ext. intros j _. apply item_zip_with_mul.
Qed.

(** What [compute_chunk_masks] returns on conforming arguments. *)
Lemma compute_chunk_masks_rows (chunk_weights : ndarray2 num)
    (norm_weight std_weight : list num) :
  wf2 chunk_weights ->
  length norm_weight = shape1 chunk_weights ->
  length std_weight = shape1 chunk_weights ->
  compute_chunk_masks chunk_weights norm_weight std_weight
  = Ok (Array2 (shape0 chunk_weights) (shape1 chunk_weights)
          (map (fun r => zip_with num_mul r norm_weight) (rows chunk_weights)),
        Array2 (shape0 chunk_weights) (shape1 chunk_weights)
          (map (fun r => zip_with num_mul r std_weight) (rows chunk_weights))).
Proof.
  intros Hwf Hnorm Hstd. unfold compute_chunk_masks.
  rewrite !np_multiply_row_r by done. by ret_step.
Qed.

(** X9: the numerator and the network weight of ROI [i] are the sums of
    its chunk weights, weighted by the norms and by the standard deviations:
    [compute_numerator] and [compute_network_weights] after
    [compute_chunk_masks]. *)
Theorem compute_numerator_weighted_sums (chunk_weights : ndarray2 num)
    (norm_weight std_weight : list num)
    (norm_chunk_masks std_chunk_masks : ndarray2 num) :
  wf2 chunk_weights ->
  length norm_weight = shape1 chunk_weights ->
  length std_weight = shape1 chunk_weights ->
  compute_chunk_masks chunk_weights norm_weight std_weight
  = Ok (norm_chunk_masks, std_chunk_masks) ->
  length (compute_numerator norm_chunk_masks) = shape0 chunk_weights /\
  length (compute_network_weights std_chunk_masks) = shape0 chunk_weights /\
  forall i, i < shape0 chunk_weights ->
    item (compute_numerator norm_chunk_masks) i
    = sum_below (shape1 chunk_weights) (fun j =>
        item2 chunk_weights i j * item norm_weight j)%num /\
    item (compute_network_weights std_chunk_masks) i
    = sum_below (shape1 chunk_weights) (fun j =>
        item2 chunk_weights i j * item std_weight j)%num.
Proof.
  intros Hwf Hnorm Hstd. rewrite compute_chunk_masks_rows by done.
  intros [= <- <-]. destruct Hwf as [Hlen Hrows].
  unfold compute_numerator, compute_network_weights, np_sum_axis1; simpl.
  rewrite !length_map. split; [done|]. split; [done|].
  intros i Hi. unfold item2.
  assert (Hrow : length (nth i (rows chunk_weights) []) = shape1 chunk_weights).
  { rewrite Forall_forall in Hrows. apply Hrows.
    apply list_elem_of_In, nth_In. lia. }
  split; unfold item at 1; rewrite map_map, (nth_map_lt _ _ _ _ []) by lia;
    by apply vsum_weighted.
Qed.

End kernel_compose.

(** ** What process_chunk does *)

Lemma np_array2_ok {A} (n : nat) (l : list (list A)) :
  l <> [] -> Forall (fun r => length r = n) l ->
  np_array2 l = Ok (Array2 (length l) n l).
Proof.
  intros Hne Hall. destruct l as [|r l]; [done|]. unfold np_array2.
  assert (Hr : length r = n) by (by inversion Hall).
  rewrite Hr. rewrite (proj2 (forallb_forall _ _)); [done|].
  intros r' Hr'%list_elem_of_In. apply Nat.eqb_eq.
  rewrite Forall_forall in Hall. by apply Hall.
Qed.

Section rounds.
Context {exact : Exact}.
Variables (w : world) (chunk : nat) (rois : list string) (cfg : config).
Variables (chunk_paths : gmap string string).
Variables (brain_weights chunk_weights : ndarray2 num).
Variables (brain_masks chunk_masks : ndarray2 bool).
Variables (norm_chunk_masks std_chunk_masks : ndarray2 num).

Local Abbreviation round := (process_chunk_type w chunk rois cfg chunk_paths
  brain_weights chunk_weights brain_masks chunk_masks
  norm_chunk_masks std_chunk_masks).

(** A file that cannot be loaded stops the round with the error of the
    loader. *)
Lemma process_chunk_type_load_error (key label dir : string) (e : error)
    (st : pydict (gmap string value) * list (list num)) :
  chunk_paths !! key = Some dir ->
  np_load w dir chunk label = Err e ->
  round (key, label) st = Err e.
Proof.
  intros Hdir Hload. unfold process_chunk_type; cbn [fst snd].
  rewrite Hdir; simpl. by rewrite Hload.
Qed.

(** A file of the configured shape: the round of every statistic but
    [combo] goes on to [compute_network_maps], and stops there. *)
Lemma process_chunk_type_typing_error (key label dir : string)
    (chunk_data : ndarray2 num)
    (st : pydict (gmap string value) * list (list num)) :
  chunk_paths !! key = Some dir ->
  np_load w dir chunk label = Ok chunk_data ->
  (shape0 chunk_data, shape1 chunk_data)
    = (cfg_chunk_size cfg, cfg_brain_size cfg) ->
  key <> "combo" ->
  round (key, label) st = Err TypingError.
Proof.
  intros Hdir Hload Hshape Hkey. unfold process_chunk_type; cbn [fst snd].
  rewrite Hdir; simpl. rewrite Hload; simpl.
  rewrite bool_decide_eq_true_2 by done. cbn [negb].
  by rewrite bool_decide_eq_false_2.
Qed.


End rounds.

Section process_chunk_facts.
Context {exact : Exact}.
Implicit Types (h : list (list num)) (c : pydict (gmap string value)).


Section setup.
Variables (w : world) (chunk : nat) (rois : list string) (cfg : config).

(** The maskers give one value for each voxel of their mask. *)
Hypothesis rois_nonempty : rois <> [].
Hypothesis brain_voxels :
  forall roi, roi ∈ rois ->
    length (brain_transform w (cfg_mask cfg) roi) = cfg_brain_size cfg.
Hypothesis chunk_voxels :
  forall roi, roi ∈ rois ->
    length (chunk_transform w (cfg_chunk_idx cfg) chunk roi) = cfg_chunk_size cfg.
Hypothesis norm_voxels :
  length (chunk_transform w (cfg_chunk_idx cfg) chunk (cfg_norm cfg))
  = cfg_chunk_size cfg.
Hypothesis std_voxels :
  length (chunk_transform w (cfg_chunk_idx cfg) chunk (cfg_std cfg))
  = cfg_chunk_size cfg.

Local Abbreviation nB := (cfg_brain_size cfg).
Local Abbreviation nC := (cfg_chunk_size cfg).
Local Abbreviation bmask := (brain_transform w (cfg_mask cfg)).
Local Abbreviation cmask := (chunk_transform w (cfg_chunk_idx cfg) chunk).
Local Abbreviation norm := (cmask (cfg_norm cfg)).
Local Abbreviation std := (cmask (cfg_std cfg)).
Local Abbreviation bwA := (Array2 (length rois) nB (map bmask rois)).
Local Abbreviation cwA := (Array2 (length rois) nC (map cmask rois)).
Local Abbreviation bmA :=
  (Array2 (length rois) nB (map (map nonzero) (map bmask rois))).
Local Abbreviation cmA :=
  (Array2 (length rois) nC (map (map nonzero) (map cmask rois))).
Local Abbreviation ncm :=
  (Array2 (length rois) nC
     (map (fun r => zip_with num_mul r norm) (map cmask rois))).
Local Abbreviation scm :=
  (Array2 (length rois) nC
     (map (fun r => zip_with num_mul r std) (map cmask rois))).

(** [process_chunk] up to its loops, for a batch that is not empty. *)
Lemma process_chunk_setup h :
  process_chunk w chunk rois cfg h
  = '(contributions, h) ←
      for_each (process_chunk_type w chunk rois cfg
                  (<["avgr" := cfg_avgr cfg]> (<["fz" := cfg_fz cfg]>
                   (<["t" := cfg_t cfg]> (<["combo" := cfg_combo cfg]> ∅))))
                  bwA cwA bmA cmA ncm scm)
        chunk_types ([], h);
    contributions ←
      for_each (fun '(i, roi) contributions =>
          network_weight ← of_option IndexError
                             (compute_network_weights scm !! i);
          setfield roi "network_weight" (VNum network_weight) contributions)
        (enumerate rois) contributions;
    Ok (contributions, h).
Proof.
  unfold process_chunk.
  assert (Hb : Forall (fun r => length r = nB) (map bmask rois)).
  { apply Forall_map, Forall_forall. intros roi Hroi. by apply brain_voxels. }
  assert (Hc : Forall (fun r => length r = nC) (map cmask rois)).
  { apply Forall_map, Forall_forall. intros roi Hroi. by apply chunk_voxels. }
  rewrite (np_array2_ok nB (map bmask rois)) by (done || by destruct rois).
  rewrite (np_array2_ok nC (map cmask rois)) by (done || by destruct rois).
  ret_step. unfold nonzero_masks. cbn [rows].
  rewrite (np_array2_ok nB (map (map nonzero) (map bmask rois))).
  2: { by destruct rois. }
  2: { apply Forall_map. eapply Forall_impl; [exact Hb|]. intros r Hr. simpl.
       by rewrite length_map. }
  rewrite (np_array2_ok nC (map (map nonzero) (map cmask rois))).
  2: { by destruct rois. }
  2: { apply Forall_map. eapply Forall_impl; [exact Hc|]. intros r Hr. simpl.
       by rewrite length_map. }
  ret_step. rewrite !length_map.
  rewrite compute_chunk_masks_rows; cbn [shape0 shape1 rows]; try done.
  split; simpl; [by rewrite length_map|done].
Qed.

(** What the AvgR file decides: it cannot be loaded, it has another shape
    than the configured one, or the first kernel is called. *)
Lemma process_chunk_first_round h :
  process_chunk w chunk rois cfg h
  = match np_load w (cfg_avgr cfg) chunk "AvgR" with
    | Err e => Err e
    | Ok chunk_data =>
        if bool_decide ((shape0 chunk_data, shape1 chunk_data)
                        = (cfg_chunk_size cfg, cfg_brain_size cfg))
        then Err TypingError
        else Err (TypeError shape_message)
    end.
Proof.
  rewrite process_chunk_setup. unfold chunk_types. cbn [for_each].
  set (paths := <["avgr" := cfg_avgr cfg]> _).
  destruct (np_load w (cfg_avgr cfg) chunk "AvgR") as [chunk_data|e] eqn:Hload.
  - case_bool_decide as Hshape.
    + by rewrite (process_chunk_type_typing_error _ _ _ _ paths _ _ _ _ _ _
                    "avgr" "AvgR" (cfg_avgr cfg) chunk_data).
    + by rewrite (process_chunk_type_shape_mismatch _ _ _ _ paths _ _ _ _ _ _
                    "avgr" "AvgR" (cfg_avgr cfg) chunk_data).
  - by rewrite (process_chunk_type_load_error _ _ _ _ paths _ _ _ _ _ _
                  "avgr" "AvgR" (cfg_avgr cfg) e).
Qed.

End setup.

(** X1: [process_chunk] returns no contribution where it should.  For a
    batch that is not empty, maskers that give [brain_size] and
    [chunk_size] values, and an AvgR file of shape
    [(chunk_size, brain_size)], it raises [TypingError]: the first call of
    [compute_network_maps] cannot be compiled. *)
Theorem process_chunk_typing_error (w : world) (chunk : nat)
    (rois : list string) (cfg : config) (d_avgr : ndarray2 num) h :
  rois <> [] ->
  (forall roi, roi ∈ rois ->
     length (brain_transform w (cfg_mask cfg) roi) = cfg_brain_size cfg) ->
  (forall roi, roi ∈ rois ->
     length (chunk_transform w (cfg_chunk_idx cfg) chunk roi)
     = cfg_chunk_size cfg) ->
  length (chunk_transform w (cfg_chunk_idx cfg) chunk (cfg_norm cfg))
  = cfg_chunk_size cfg ->
  length (chunk_transform w (cfg_chunk_idx cfg) chunk (cfg_std cfg))
  = cfg_chunk_size cfg ->
  np_load w (cfg_avgr cfg) chunk "AvgR" = Ok d_avgr ->
  (shape0 d_avgr, shape1 d_avgr) = (cfg_chunk_size cfg, cfg_brain_size cfg) ->
  process_chunk w chunk rois cfg h = Err TypingError.
Proof.
  intros Hne Hbrain Hchunk Hnorm Hstd Hload Hshape.
  rewrite process_chunk_first_round, Hload by done.
  by rewrite bool_decide_eq_true_2.
Qed.

(** X7: an AvgR file of another shape than [(chunk_size, brain_size)]
    makes [process_chunk] fail with the [TypeError] of the shape check,
    whatever the two shapes are: the message is one fixed text. *)
Theorem process_chunk_shape_error (w : world) (chunk : nat)
    (rois : list string) (cfg : config) (d_avgr : ndarray2 num) h :
  rois <> [] ->
  (forall roi, roi ∈ rois ->
     length (brain_transform w (cfg_mask cfg) roi) = cfg_brain_size cfg) ->
  (forall roi, roi ∈ rois ->
     length (chunk_transform w (cfg_chunk_idx cfg) chunk roi)
     = cfg_chunk_size cfg) ->
  length (chunk_transform w (cfg_chunk_idx cfg) chunk (cfg_norm cfg))
  = cfg_chunk_size cfg ->
  length (chunk_transform w (cfg_chunk_idx cfg) chunk (cfg_std cfg))
  = cfg_chunk_size cfg ->
  np_load w (cfg_avgr cfg) chunk "AvgR" = Ok d_avgr ->
  (shape0 d_avgr, shape1 d_avgr) <> (cfg_chunk_size cfg, cfg_brain_size cfg) ->
  process_chunk w chunk rois cfg h = Err (TypeError shape_message).
Proof.
  intros Hne Hbrain Hchunk Hnorm Hstd Hload Hshape.
  rewrite process_chunk_first_round, Hload by done.
  by rewrite bool_decide_eq_false_2.
Qed.

(** X19: an AvgR file that cannot be loaded makes [process_chunk] fail
    with the error of the loader: the error is not caught, and no
    contribution is returned. *)
Theorem process_chunk_load_error (w : world) (chunk : nat)
    (rois : list string) (cfg : config) h (e : error) :
  rois <> [] ->
  (forall roi, roi ∈ rois ->
     length (brain_transform w (cfg_mask cfg) roi) = cfg_brain_size cfg) ->
  (forall roi, roi ∈ rois ->
     length (chunk_transform w (cfg_chunk_idx cfg) chunk roi)
     = cfg_chunk_size cfg) ->
  length (chunk_transform w (cfg_chunk_idx cfg) chunk (cfg_norm cfg))
  = cfg_chunk_size cfg ->
  length (chunk_transform w (cfg_chunk_idx cfg) chunk (cfg_std cfg))
  = cfg_chunk_size cfg ->
  np_load w (cfg_avgr cfg) chunk "AvgR" = Err e ->
  process_chunk w chunk rois cfg h = Err e.
Proof.
  intros Hne Hbrain Hchunk Hnorm Hstd Hload.
  by rewrite process_chunk_first_round, Hload by done.
Qed.

End process_chunk_facts.


(** ** consolidate, key by key *)

Section consolidate_more.
Context {exact : Exact}.
Implicit Types (h : list (list num)) (c A d : pydict (gmap string value)).
Implicit Types (rec arec crec : gmap string value).

Lemma bind_Err {X Y} (m : result X) (f : X -> result Y) (e : error) :
  m ≫= f = Err e <-> m = Err e \/ exists a, m = Ok a /\ f a = Err e.
Proof.
  destruct m as [a|e']; simpl.
  - split; [intros Hf; right; by exists a|].
    by intros [|(a' & [= <-] & Hf)].
  - split; [intros [= ->]; by left|]. by intros [[= ->]|(a' & ? & _)].
Qed.

(** *** The keys of the atlas *)

Lemma filter_ext_elem {X} (P Q : X -> Prop) `{!forall x, Decision (P x)}
    `{!forall x, Decision (Q x)} (l : list X) :
  (forall x, x ∈ l -> P x <-> Q x) -> filter P l = filter Q l.
Proof.
  induction l as [|x l IH]; intros Hext; [done|].
  rewrite !filter_cons. rewrite IH by (intros y Hy; apply Hext; by right).
  destruct (decide (P x)) as [HP|HP], (decide (Q x)) as [HQ|HQ]; try done;
    exfalso; apply (Hext x) in HP || apply (Hext x) in HQ; by try left.
Qed.


Lemma dict_keys_set_get {V} k (v : V) (d : pydict V) :
  dict_keys (dict_set k v d)
  = if dict_mem k d then dict_keys d else dict_keys d ++ [k].
Proof.
  destruct (dict_mem k d) eqn:Hmem.
  - apply dict_mem_true in Hmem as [v' Hv']. by eapply dict_set_present.
  - apply dict_mem_false in Hmem. rewrite dict_set_absent by done.
    unfold dict_keys. by rewrite map_app.
Qed.

Lemma setfield_inv roi f v d d' :
  setfield roi f v d = Ok d' ->
  exists rec, dict_get roi d = Some rec /\
              d' = dict_set roi (<[f := v]> rec) d.
Proof.
  unfold setfield. intros (rec & Hget%of_option_Ok & [= <-])%bind_Ok. eauto.
Qed.

Lemma getfield_inv d roi f v :
  getfield d roi f = Ok v ->
  exists rec, dict_get roi d = Some rec /\ rec !! f = Some v.
Proof.
  unfold getfield.
  intros (rec & Hget%of_option_Ok & Hf%of_option_Ok)%bind_Ok. eauto.
Qed.

Lemma iadd_field_inv c roi f A h A' h' :
  iadd_field c roi f (A, h) = Ok (A', h') ->
  exists arec crec old rhs new,
    dict_get roi A = Some arec /\ arec !! f = Some old /\
    dict_get roi c = Some crec /\ crec !! f = Some rhs /\
    iadd old rhs h = Ok (new, h') /\
    A' = dict_set roi (<[f := new]> arec) A.
Proof.
  unfold iadd_field.
  intros (old & (arec & HA & Hold)%getfield_inv & Hrun)%bind_Ok.
  apply bind_Ok in Hrun as (rhs & (crec & Hc & Hrhs)%getfield_inv & Hrun).
  apply bind_Ok in Hrun as ([new h1] & Hadd & Hrun).
  apply bind_Ok in Hrun as (A1 & (arec' & HA' & ->)%setfield_inv & [= <- <-]).
  assert (arec' = arec) as -> by congruence.
  by exists arec, crec, old, rhs, new.
Qed.


Lemma iadd_array_left old rhs h new h' l :
  iadd old rhs h = Ok (new, h') -> old = VArr l -> new = VArr l.
Proof.
  intros Hadd ->. unfold iadd in Hadd. destruct rhs as [r|y].
  - apply bind_Ok in Hadd as (a & _ & Hadd).
    apply bind_Ok in Hadd as (b & _ & Hadd).
    destruct (_ || _); [|done]. by injection Hadd as <- _.
  - apply bind_Ok in Hadd as (a & _ & Hadd). by injection Hadd as <- _.
Qed.

(** One [+=] of [consolidate]: the record of the ROI gets a new value for
    the field, and an array stays the array it was. *)
Lemma iadd_field_upd c roi f A h A' h' arec :
  iadd_field c roi f (A, h) = Ok (A', h') ->
  dict_get roi A = Some arec ->
  exists arec' crec,
    A' = dict_set roi arec' A /\ dom arec' = dom arec /\
    dict_get roi c = Some crec /\ is_Some (crec !! f) /\ is_Some (arec !! f) /\
    forall g l, arec !! g = Some (VArr l) -> arec' !! g = Some (VArr l).
Proof.
  intros (arec0 & crec & old & rhs & new & HA & Hold & Hc & Hrhs & Hadd & ->)
    %iadd_field_inv Hget.
  assert (arec0 = arec) as -> by congruence.
  exists (<[f := new]> arec), crec. split; [done|]. split.
  { rewrite dom_insert_L. apply elem_of_dom_2 in Hold.
    by apply subseteq_union_1_L, singleton_subseteq_l. }
  split; [done|]. split; [by eexists|]. split; [by eexists|].
  intros g l Hg. destruct (decide (f = g)) as [<-|Hne].
  - rewrite lookup_insert_eq. f_equal.
    eapply iadd_array_left; [done|congruence].
  - by rewrite lookup_insert_ne.
Qed.

Lemma iadd_fields_upd c roi fs : forall A h A' h' arec,
  for_each (iadd_field c roi) fs (A, h) = Ok (A', h') ->
  dict_get roi A = Some arec ->
  exists arec',
    dict_get roi A' = Some arec' /\
    (fs <> [] -> A' = dict_set roi arec' A) /\ dom arec' = dom arec /\
    (forall g l, arec !! g = Some (VArr l) -> arec' !! g = Some (VArr l)) /\
    forall f, f ∈ fs ->
      is_Some (arec !! f) /\
      exists crec, dict_get roi c = Some crec /\ is_Some (crec !! f).
Proof.
  induction fs as [|f fs IH]; intros A h A' h' arec; simpl.
  - intros [= <- <-] Hget. exists arec. split; [done|]. split; [done|].
    split; [done|]. split; [done|]. by intros ? ?%elem_of_nil.
  - intros ([A1 h1] & Hf & Hrest)%bind_Ok Hget.
    destruct (iadd_field_upd _ _ _ _ _ _ _ _ Hf Hget)
      as (arec1 & crec & -> & Hdom1 & Hc & Hcf & Haf & Harr1).
    destruct (IH _ _ _ _ arec1 Hrest (dict_get_set_eq _ _ _))
      as (arec' & Hget' & HA' & Hdom' & Harr' & Hfs).
    exists arec'. split; [done|]. split.
    { intros _. destruct fs as [|f' fs].
      - simpl in Hrest. injection Hrest as <- <-.
        rewrite dict_get_set_eq in Hget'. by injection Hget' as <-.
      - rewrite HA' by done. by rewrite dict_set_set. }
    split; [congruence|]. split; [by auto|].
    intros g [->|Hg]%elem_of_cons.
    + split; [done|]. by exists crec.
    + destruct (Hfs g Hg) as [Hg1 Hg2]. split; [|done].
      apply elem_of_dom. rewrite <-Hdom1. by apply elem_of_dom.
Qed.

Lemma consolidate_roi_present_loop c roi A h :
  dict_mem roi A = true ->
  consolidate_roi c roi (A, h)
  = for_each (iadd_field c roi) field_names (A, h).
Proof.
  intros Hmem. unfold consolidate_roi. cbn [fst snd]. rewrite Hmem.
  unfold field_names. cbn [for_each].
  destruct (iadd_field c roi "avgr" (A, h)) as [st|]; [|done]. ret_step.
  destruct (iadd_field c roi "fz" st) as [st1|]; [|done]. ret_step.
  destruct (iadd_field c roi "t" st1) as [st2|]; [|done]. ret_step.
  destruct (iadd_field c roi "network_weight" st2) as [st3|]; [|done]. ret_step.
  destruct (iadd_field c roi "numerator" st3) as [st4|]; [|done]. ret_step.
  by destruct (iadd_field c roi "denominator" st4).
Qed.

Lemma six_fields_names (f : string) : f ∈ six_fields <-> f ∈ field_names.
Proof. unfold six_fields. by rewrite elem_of_list_to_set. Qed.

(** What a successful round of [consolidate] did. *)
Lemma consolidate_roi_inv c roi A h A' h' :
  consolidate_roi c roi (A, h) = Ok (A', h') ->
  exists crec rec',
    dict_get roi c = Some crec /\ six_fields ⊆ dom crec /\
    A' = dict_set roi rec' A /\
    match dict_get roi A with
    | Some arec =>
        six_fields ⊆ dom arec /\ dom rec' = dom arec /\
        forall g l, arec !! g = Some (VArr l) -> rec' !! g = Some (VArr l)
    | None =>
        h' = h /\ dom rec' = six_fields /\
        forall f, f ∈ six_fields -> rec' !! f = crec !! f
    end.
Proof.
  destruct (dict_get roi A) as [arec|] eqn:HA.
  - rewrite consolidate_roi_present_loop
      by (apply dict_mem_true; by rewrite HA).
    intros Hloop.
    destruct (iadd_fields_upd _ _ _ _ _ _ _ _ Hloop HA)
      as (arec' & Hget' & HA' & Hdom & Harr & Hfs).
    destruct (Hfs "avgr") as (_ & crec & Hc & _); [by left|].
    exists crec, arec'. split; [done|]. split.
    { intros f Hf%six_fields_names. destruct (Hfs f Hf) as (_ & crec' & Hc' & Hcf).
      apply elem_of_dom. congruence. }
    split; [by apply HA'|]. split; [|done].
    intros f Hf%six_fields_names. apply elem_of_dom. by apply Hfs.
  - unfold consolidate_roi. cbn [fst snd].
    rewrite (proj2 (dict_mem_false _ _) HA).
    intros (avgr & (crec & Hc & Havgr)%getfield_inv & Hrun)%bind_Ok.
    apply bind_Ok in Hrun as (fz & (crec1 & Hc1 & Hfz)%getfield_inv & Hrun).
    apply bind_Ok in Hrun as (t & (crec2 & Hc2 & Ht)%getfield_inv & Hrun).
    apply bind_Ok in Hrun as (w & (crec3 & Hc3 & Hw)%getfield_inv & Hrun).
    apply bind_Ok in Hrun as (nu & (crec4 & Hc4 & Hnu)%getfield_inv & Hrun).
    apply bind_Ok in Hrun as (de & (crec5 & Hc5 & Hde)%getfield_inv & Hrun).
    injection Hrun as <- <-.
    assert (crec1 = crec) as -> by congruence.
    assert (crec2 = crec) as -> by congruence.
    assert (crec3 = crec) as -> by congruence.
    assert (crec4 = crec) as -> by congruence.
    assert (crec5 = crec) as -> by congruence.
    eexists crec, _. split; [done|]. split.
    { intros f Hf%six_fields_cases. apply elem_of_dom.
      destruct Hf as [->|[->|[->|[->|[->| ->]]]]]; by eexists. }
    split; [done|]. split; [done|]. split.
    { by rewrite !dom_insert_L, dom_empty_L. }
    intros f Hf%six_fields_cases.
    destruct Hf as [->|[->|[->|[->|[->| ->]]]]]; by simplify_map_eq.
Qed.

(** [consolidate] on the keys [ks]: the atlas keeps its keys in their order
    and gets the new ones after them, in the order of [ks]; the records under
    other keys are not touched. *)
Lemma consolidate_keys_loop c ks : forall A h A' h',
  NoDup ks ->
  for_each (consolidate_roi c) ks (A, h) = Ok (A', h') ->
  dict_keys A' = dict_keys A ++ filter (fun k => k ∉ dict_keys A) ks /\
  forall roi, roi ∉ ks -> dict_get roi A' = dict_get roi A.
Proof.
  induction ks as [|k ks IH]; intros A h A' h' Hnd; simpl.
  - intros [= <- <-]. by rewrite app_nil_r.
  - intros ([A1 h1] & Hk & Hrest)%bind_Ok.
    apply NoDup_cons in Hnd as [Hk_ks Hnd].
    destruct (IH _ _ _ _ Hnd Hrest) as [Hkeys Hframe].
    destruct (consolidate_roi_inv _ _ _ _ _ _ Hk)
      as (crec & rec' & _ & _ & -> & _).
    split.
    + rewrite Hkeys, dict_keys_set_get. rewrite filter_cons.
      destruct (dict_mem k A) eqn:Hmem.
      * apply dict_mem_true in Hmem as [v Hv%dict_get_Some_keys].
        by rewrite decide_False by auto.
      * apply dict_mem_false, dict_get_None in Hmem.
        rewrite decide_True by done. rewrite <-app_assoc. simpl. do 2 f_equal.
        apply filter_ext_elem. intros k' Hk'.
        rewrite not_elem_of_app, list_elem_of_singleton.
        split; [tauto|]. intros Hn. split; [done|]. by intros ->.
    + intros roi [Hne Hroi]%not_elem_of_cons.
      rewrite Hframe by done. by apply dict_get_set_ne.
Qed.


(** X12: a successful [consolidate] keeps the ROIs of the atlas in their
    order and puts the new ROIs of the contribution after them, in the order
    of the contribution; the record of a ROI the contribution does not have
    is not touched. *)
Theorem consolidate_keys c A h A' h' :
  NoDup (dict_keys c) ->
  consolidate c A h = Ok (A', h') ->
  dict_keys A' = dict_keys A ++ filter (fun k => k ∉ dict_keys A) (dict_keys c) /\
  forall roi, roi ∉ dict_keys c -> dict_get roi A' = dict_get roi A.
Proof. intros Hnd Hrun. by eapply consolidate_keys_loop. Qed.

Lemma consolidate_in_place_loop c ks A h A' h' roi arec :
  for_each (consolidate_roi c) ks (A, h) = Ok (A', h') ->
  dict_get roi A = Some arec ->
  exists arec',
    dict_get roi A' = Some arec' /\ dom arec' = dom arec /\
    forall f l, arec !! f = Some (VArr l) -> arec' !! f = Some (VArr l).
Proof.
  intros Hrun Hget.
  eapply (for_each_invariant _
            (fun s => exists arec',
               dict_get roi s.1 = Some arec' /\ dom arec' = dom arec /\
               forall f l, arec !! f = Some (VArr l) ->
                           arec' !! f = Some (VArr l))
            (fun _ _ => True))
    in Hrun as (Hinv & _ & _); [done| |by exists arec].
  intros k [A0 h0] [A1 h1] _ Hk (arec0 & Hget0 & Hdom0 & Harr0).
  simpl in Hget0. split; [|done]. simpl.
  destruct (consolidate_roi_inv _ _ _ _ _ _ Hk)
    as (crec & rec' & _ & _ & -> & Hcase).
  destruct (decide (k = roi)) as [->|Hne].
  - rewrite Hget0 in Hcase. destruct Hcase as (_ & Hdom' & Harr').
    exists rec'. rewrite dict_get_set_eq. split; [done|].
    split; [congruence|]. by auto.
  - exists arec0. by rewrite dict_get_set_ne.
Qed.

(** X13: [consolidate] updates the arrays of the atlas in place: wherever
    a record of the atlas held an array, the record of that ROI holds the
    same array object after a successful call, and has the same fields. *)
Theorem consolidate_in_place c A h A' h' roi arec :
  consolidate c A h = Ok (A', h') ->
  dict_get roi A = Some arec ->
  exists arec',
    dict_get roi A' = Some arec' /\ dom arec' = dom arec /\
    forall f l, arec !! f = Some (VArr l) -> arec' !! f = Some (VArr l).
Proof. apply consolidate_in_place_loop. Qed.

(** X14: [consolidate] takes no partial record: after a successful call,
    every record of the contribution has the six fields. *)
Theorem consolidate_complete_records c A h A' h' roi :
  consolidate c A h = Ok (A', h') ->
  roi ∈ dict_keys c ->
  exists crec, dict_get roi c = Some crec /\ six_fields ⊆ dom crec.
Proof.
  intros Hrun Hroi. unfold consolidate in Hrun.
  eapply (for_each_invariant _ (fun _ => True)
            (fun k _ => exists crec,
               dict_get k c = Some crec /\ six_fields ⊆ dom crec))
    in Hrun as (_ & HQ & _); [by apply HQ| |done].
  intros k [A0 h0] [A1 h1] _ Hk _. split; [done|]. split; [|done].
  destruct (consolidate_roi_inv _ _ _ _ _ _ Hk)
    as (crec & rec' & Hc & Hdom & _). by exists crec.
Qed.


Lemma getfield_cases d roi f rec :
  dict_get roi d = Some rec ->
  getfield d roi f = of_option (KeyError f) (rec !! f).
Proof. unfold getfield. by intros ->. Qed.

(** A new key: the round fails only for a field the record lacks. *)
Lemma consolidate_roi_absent_Err c roi A h crec e :
  dict_get roi A = None -> dict_get roi c = Some crec ->
  consolidate_roi c roi (A, h) = Err e ->
  exists f, f ∈ field_names /\ crec !! f = None /\ e = KeyError f.
Proof.
  intros HA Hc. unfold consolidate_roi. cbn [fst snd].
  rewrite (proj2 (dict_mem_false _ _) HA).
  rewrite !(getfield_cases _ _ _ _ Hc). unfold field_names.
  destruct (crec !! "avgr") eqn:H1; simpl;
    [|intros [= <-]; exists "avgr"; split; [set_solver|done]].
  destruct (crec !! "fz") eqn:H2; simpl;
    [|intros [= <-]; exists "fz"; split; [set_solver|done]].
  destruct (crec !! "t") eqn:H3; simpl;
    [|intros [= <-]; exists "t"; split; [set_solver|done]].
  destruct (crec !! "network_weight") eqn:H4; simpl;
    [|intros [= <-]; exists "network_weight"; split; [set_solver|done]].
  destruct (crec !! "numerator") eqn:H5; simpl;
    [|intros [= <-]; exists "numerator"; split; [set_solver|done]].
  destruct (crec !! "denominator") eqn:H6; simpl;
    [|intros [= <-]; exists "denominator"; split; [set_solver|done]].
  done.
Qed.

Lemma consolidate_fresh_Err c h ks : forall A e,
  NoDup ks ->
  (forall k, k ∈ ks -> dict_get k A = None) ->
  (forall k, k ∈ ks -> is_Some (dict_get k c)) ->
  for_each (consolidate_roi c) ks (A, h) = Err e ->
  exists roi crec f,
    roi ∈ ks /\ dict_get roi c = Some crec /\
    f ∈ field_names /\ crec !! f = None /\ e = KeyError f.
Proof.
  induction ks as [|k ks IH]; intros A e Hnd Hnew Hin; simpl; [done|].
  apply NoDup_cons in Hnd as [Hk Hnd].
  destruct (Hin k) as [crec Hc]; [by left|].
  intros [Herr|([A1 h1] & Hok & Hrest)]%bind_Err.
  - destruct (consolidate_roi_absent_Err _ _ _ _ _ _ (Hnew k ltac:(by left))
                Hc Herr) as (f & Hf & Hnone & ->).
    exists k, crec, f. split; [by left|done].
  - destruct (consolidate_roi_inv _ _ _ _ _ _ Hok)
      as (crec' & rec' & _ & _ & -> & Hcase).
    rewrite (Hnew k) in Hcase by (by left). destruct Hcase as (-> & _).
    apply IH in Hrest as (roi & crec1 & f & Hroi & Hc1 & Hf & Hnone & ->);
      [|done| |].
    + exists roi, crec1, f. split; [by right|done].
    + intros k' Hk'. rewrite dict_get_set_ne by (by intros ->).
      apply Hnew. by right.
    + intros k' Hk'. apply Hin. by right.
Qed.

(** X15: consolidating into an empty atlas fails in one way only: with a
    [KeyError] that names one of the six fields, which a record of the
    contribution lacks. *)
Theorem consolidate_key_error c h e :
  NoDup (dict_keys c) ->
  consolidate c [] h = Err e ->
  exists roi crec f,
    dict_get roi c = Some crec /\ f ∈ field_names /\
    crec !! f = None /\ e = KeyError f.
Proof.
  intros Hnd Herr. unfold consolidate in Herr.
  apply consolidate_fresh_Err in Herr
    as (roi & crec & f & _ & Hc & Hf & Hnone & ->); try done.
  - by exists roi, crec, f.
  - apply dict_get_keys_Some.
Qed.


(** A key of the atlas whose arrays have another length than those of the
    contribution: the first [+=] fails. *)
Lemma consolidate_roi_mismatch n m c roi A h arec crec :
  dict_get roi A = Some arec -> record_ok n h arec ->
  dict_get roi c = Some crec -> record_ok m h crec ->
  m <> n -> m <> 1 ->
  consolidate_roi c roi (A, h) = Err ValueError.
Proof.
  intros HA (_ & Hvec & _) Hc (_ & Hvec' & _) Hmn Hm1.
  destruct (Hvec "avgr") as (l & Hl & a & Ha & Hlen); [by left|].
  destruct (Hvec' "avgr") as (r & Hr & b & Hb & Hlen'); [by left|].
  unfold consolidate_roi. cbn [fst snd].
  rewrite (proj2 (dict_mem_true _ _)) by (by rewrite HA).
  unfold iadd_field at 6.
  rewrite (getfield_ok _ _ _ _ _ HA Hl), (getfield_ok _ _ _ _ _ Hc Hr).
  ret_step. unfold iadd. rewrite Ha, Hb. simpl. rewrite Hlen, Hlen'.
  apply Nat.eqb_neq in Hmn, Hm1. by rewrite Hmn, Hm1.
Qed.

Lemma consolidate_mismatch_loop n m c h ks : forall A,
  NoDup ks -> m <> n -> m <> 1 ->
  (forall k, k ∈ ks ->
     exists crec, dict_get k c = Some crec /\ record_ok m h crec) ->
  (forall k arec, k ∈ ks -> dict_get k A = Some arec -> record_ok n h arec) ->
  (exists k, k ∈ ks /\ is_Some (dict_get k A)) ->
  for_each (consolidate_roi c) ks (A, h) = Err ValueError.
Proof.
  induction ks as [|k ks IH]; intros A Hnd Hmn Hm1 Hc HA (k0 & Hk0 & Hin).
  { by apply elem_of_nil in Hk0. }
  apply NoDup_cons in Hnd as [Hk Hnd]. simpl.
  destruct (Hc k) as (crec & Hget & Hok); [by left|].
  destruct (dict_get k A) as [arec|] eqn:Hka.
  - assert (Harec : record_ok n h arec) by (apply (HA k); [by left|done]).
    by rewrite (consolidate_roi_mismatch n m c k A h arec crec).
  - rewrite (consolidate_roi_step_absent m c A h k crec) by done. ret_step.
    rewrite <-(dict_set_absent k crec A) by done.
    apply IH; try done.
    + intros k' Hk'. apply Hc. by right.
    + intros k' arec Hk'. rewrite dict_get_set_ne by (by intros ->).
      apply HA. by right.
    + apply elem_of_cons in Hk0 as [->|Hk0].
      { rewrite Hka in Hin. by destruct Hin. }
      exists k0. split; [done|]. rewrite dict_get_set_ne; [done|by intros ->].
Qed.

(** X16: an atlas and a contribution whose arrays have different lengths
    are not added up entry by entry as far as they go: if they share a ROI,
    [consolidate] fails with a [ValueError] (a contribution with arrays of
    one entry is the exception, NumPy repeats that entry). *)
Theorem consolidate_length_mismatch n m c A h roi :
  dict_ok n h A -> dict_ok m h c -> m <> n -> m <> 1 ->
  is_Some (dict_get roi A) -> is_Some (dict_get roi c) ->
  consolidate c A h = Err ValueError.
Proof.
  intros HA Hc Hmn Hm1 HroiA [crec Hroic]. unfold consolidate.
  apply (consolidate_mismatch_loop n m); try done.
  - apply Hc.
  - intros k Hk. destruct (dict_get_keys_Some _ _ Hk) as [crec' Hget].
    exists crec'. split; [done|]. by eapply dict_ok_get.
  - intros k arec _ Hget. by eapply dict_ok_get.
  - exists roi. split; [|done]. by eapply dict_get_Some_keys.
Qed.

(** X17: the atlas shares the arrays of the contribution that brought a
    ROI in.  After [consolidate(c, {})] and [consolidate(d, atlas)], the
    contribution [c] itself reads as the sum of the two in its array fields,
    its scalars are what they were, and [d] is unchanged. *)
Theorem consolidate_overwrites_first n c d h :
  dict_ok n h c -> dict_ok n h d -> NoDup (dict_locs c ++ dict_locs d) ->
  exists A1 A2 h2,
    consolidate c [] h = Ok (A1, h) /\
    consolidate d A1 h = Ok (A2, h2) /\
    (forall roi f, is_Some (dict_get roi c) -> f ∈ ["avgr"; "fz"; "t"] ->
       peek h2 c roi f = opt_add (peek h c roi f) (peek h d roi f)) /\
    (forall roi f, f ∈ ["network_weight"; "numerator"; "denominator"] ->
       peek h2 c roi f = peek h c roi f) /\
    (forall roi f, peek h2 d roi f = peek h d roi f).
Proof.
  intros Hc Hd Hnd.
  destruct (consolidate_disjoint n d c h Hc Hd Hnd)
    as (A2 & h2 & Hrun & HA2 & _ & _ & Hlike & Hframe & _ & Hsum).
  exists c, A2, h2. split; [by eapply consolidate_fresh_ok|].
  split; [done|]. split; [|split].
  - intros roi f [crec Hget] Hf. rewrite <-Hsum.
    destruct (consolidate_in_place_loop _ _ _ _ _ _ _ _ Hrun Hget)
      as (arec' & Hget' & _ & Harr).
    destruct (dict_ok_get _ _ _ _ _ Hc Hget) as (_ & Hvec & _).
    destruct (Hvec f Hf) as (l & Hl & _).
    rewrite (peek_get _ _ _ _ _ Hget), (peek_get _ _ _ _ _ Hget').
    by rewrite Hl, (Harr f l Hl).
  - intros roi f Hf. unfold peek.
    destruct (dict_get roi c) as [crec|] eqn:Hget; [|done]. simpl.
    destruct (dict_ok_get _ _ _ _ _ Hc Hget) as (_ & _ & Hnum).
    destruct (Hnum f Hf) as (x & Hx). by rewrite Hx.
  - intros roi f. apply (peek_agree n); [done|].
    intros l Hl%locs_at_dict_locs. apply Hframe.
    apply NoDup_app in Hnd as (_ & Hdisj & _). intros Hlc. by apply (Hdisj l).
Qed.

(** X18: what [consolidate] does to an atlas and a contribution of the
    data model that have no array in common.  It returns; the atlas has the
    ROIs of both; every field of every ROI is the sum of what the atlas and
    the contribution held for it, a ROI that only one of them had keeping
    its values; and no array but those of the atlas is written. *)
Theorem consolidate_sums n c A h :
  dict_ok n h A -> dict_ok n h c -> NoDup (dict_locs A ++ dict_locs c) ->
  exists A' h',
    consolidate c A h = Ok (A', h') /\
    dict_ok n h' A' /\
    (forall roi, is_Some (dict_get roi A')
                 <-> is_Some (dict_get roi A) \/ is_Some (dict_get roi c)) /\
    (forall roi f,
       peek h' A' roi f = opt_add (peek h A roi f) (peek h c roi f)) /\
    (forall l, l ∉ dict_locs A -> h' !! l = h !! l).
Proof.
  intros HA Hc Hnd.
  destruct (consolidate_disjoint n c A h HA Hc Hnd)
    as (A' & h' & Hrun & Hok & _ & _ & _ & Hframe & Hkeys & Hsum).
  by exists A', h'.
Qed.

End consolidate_more.

(** ** Concrete runs *)


(** The denominator of the first ROI of the example, by C1. *)
Lemma compute_denominator_masked_witness :
  wf2 Example.chunk_data /\
  nonzero_masks (exact := Z_exact) Example.brain_weights = Ok Example.brain_masks /\
  nonzero_masks (exact := Z_exact) Example.chunk_weights = Ok Example.chunk_masks /\
  compute_denominator (exact := Z_exact) Example.brain_weights Example.chunk_weights
    Example.brain_masks Example.chunk_masks Example.chunk_data 0
  = Ok 78%Z.
Proof.
  split; [split; [reflexivity|repeat constructor]|].
  split; [reflexivity|]. split; [reflexivity|].
  assert (Hwf : wf2 Example.chunk_data)
    by (split; [reflexivity|repeat constructor]).
  exact (proj1 (compute_denominator_masked (exact := Z_exact)
                  Example.brain_weights Example.chunk_weights
                  Example.brain_masks Example.chunk_masks Example.chunk_data 0
                  [1; 0; 3]%Z [1; 0; 2; 0]%Z
                  Hwf eq_refl eq_refl eq_refl eq_refl eq_refl eq_refl)).
Defined.

(** The same denominator as the full bilinear form, by C10. *)
Lemma compute_denominator_bilinear_witness :
  compute_denominator (exact := Z_exact) Example.brain_weights Example.chunk_weights
    Example.brain_masks Example.chunk_masks Example.chunk_data 0
  = Ok (sum_below (exact := Z_exact) 4 (fun j => sum_below 3 (fun k =>
          item [1; 0; 2; 0]%Z j * item2 Example.chunk_data j k
          * item [1; 0; 3]%Z k)))%num.
Proof.
  apply (compute_denominator_bilinear (exact := Z_exact)
           Example.brain_weights Example.chunk_weights
           Example.brain_masks Example.chunk_masks Example.chunk_data 0
           [1; 0; 3]%Z [1; 0; 2; 0]%Z);
    try reflexivity.
  split; [reflexivity|repeat constructor].
Defined.

(** The weighted masks of the example, by C8. *)
Lemma compute_chunk_masks_broadcast_witness :
  wf2 Example.chunk_weights /\
  exists norm_chunk_masks std_chunk_masks,
    compute_chunk_masks (exact := Z_exact) Example.chunk_weights
      Example.norm_weight Example.std_weight
    = Ok (norm_chunk_masks, std_chunk_masks) /\
    wf2 norm_chunk_masks /\ wf2 std_chunk_masks /\
    shape0 norm_chunk_masks = 2 /\ shape1 norm_chunk_masks = 4 /\
    shape0 std_chunk_masks = 2 /\ shape1 std_chunk_masks = 4 /\
    forall i j,
      item2 norm_chunk_masks i j
      = (item2 Example.chunk_weights i j * item Example.norm_weight j)%num /\
      item2 std_chunk_masks i j
      = (item2 Example.chunk_weights i j * item Example.std_weight j)%num.
Proof.
  assert (Hwf : wf2 Example.chunk_weights)
    by (split; [reflexivity|repeat constructor]).
  split; [exact Hwf|].
  exact (compute_chunk_masks_broadcast (exact := Z_exact)
           Example.chunk_weights Example.norm_weight Example.std_weight
           Hwf eq_refl eq_refl).
Defined.

(** The network weights of the example, by C9. *)
Lemma compute_network_weights_row_sums_witness :
  wf2 Example.std_chunk_masks /\
  length (compute_network_weights (exact := Z_exact) Example.std_chunk_masks) = 2 /\
  compute_network_weights (exact := Z_exact) Example.std_chunk_masks
  = [6; 4]%Z.
Proof.
  assert (Hwf : wf2 Example.std_chunk_masks)
    by (split; [reflexivity|repeat constructor]).
  split; [exact Hwf|].
  pose proof (compute_network_weights_row_sums (exact := Z_exact)
                Example.std_chunk_masks Hwf) as [[Hlen _] [_ Hval]].
  split; [exact Hlen|exact Hval].
Defined.

(** The example contributions are records of the data model. *)
Lemma example_c1_ok : dict_ok 1 Example.store12 Example.c1.
Proof.
  split; [repeat constructor; not_in_list|].
  constructor; [|constructor].
  apply mk_record_ok; eexists; split; reflexivity.
Defined.

Lemma example_c2_ok : dict_ok 1 Example.store12 Example.c2.
Proof.
  split; [repeat constructor; not_in_list|].
  constructor; [|constructor].
  apply mk_record_ok; eexists; split; reflexivity.
Defined.

Lemma example_c_shared_ok : dict_ok 1 Example.store_shared Example.c_shared.
Proof.
  split; [repeat constructor; not_in_list|].
  constructor; [|constructor].
  apply mk_record_ok; eexists; split; reflexivity.
Defined.

(** Two contributions with arrays of their own, in both orders and one by
    one in groups, by C3 for distinct arrays. *)
Lemma consolidate_order_free_witness :
  Forall (dict_ok 1 Example.store12) [Example.c1; Example.c2] /\
  NoDup (flat_map dict_locs [Example.c1; Example.c2]) /\
  exists a1 h1 a2 h2 a3 h3,
    consolidate_all [Example.c1; Example.c2] ([], Example.store12) = Ok (a1, h1) /\
    consolidate_all [Example.c2; Example.c1] ([], Example.store12) = Ok (a2, h2) /\
    consolidate_groups [[Example.c2]; [Example.c1]] Example.store12 = Ok (a3, h3) /\
    same_atlas a1 h1 a2 h2 /\ same_atlas a1 h1 a3 h3.
Proof.
  assert (Hok : Forall (dict_ok 1 Example.store12) [Example.c1; Example.c2])
    by (constructor; [apply example_c1_ok|];
        constructor; [apply example_c2_ok|constructor]).
  assert (Hnd : NoDup (flat_map dict_locs [Example.c1; Example.c2]))
    by (apply (bool_decide_unpack _); vm_compute; exact I).
  split; [exact Hok|]. split; [exact Hnd|].
  apply (consolidate_order_free (exact := Z_exact) 1 Example.store12
           [Example.c1; Example.c2] [Example.c2; Example.c1]
           [[Example.c2]; [Example.c1]] Hok Hnd); apply perm_swap.
Defined.

(** C3 as stated fails when an array is shared: the same contribution
    consolidated twice, with another one in between or after, gives
    different atlases, since the first consolidation makes the arrays of the
    contribution the arrays of the atlas. *)
Lemma consolidate_order_shared_arrays :
  Forall (dict_ok 1 Example.store12) [Example.c1; Example.c2; Example.c1] /\
  [Example.c1; Example.c1; Example.c2] ≡ₚ [Example.c1; Example.c2; Example.c1] /\
  exists a1 h1 a2 h2,
    consolidate_all [Example.c1; Example.c2; Example.c1] ([], Example.store12)
    = Ok (a1, h1) /\
    consolidate_all [Example.c1; Example.c1; Example.c2] ([], Example.store12)
    = Ok (a2, h2) /\
    peek h1 a1 "r" "avgr" = Some (CVec [22%Z]) /\
    peek h2 a2 "r" "avgr" = Some (CVec [12%Z]) /\
    ~ same_atlas a1 h1 a2 h2.
Proof.
  split.
  { constructor; [apply example_c1_ok|].
    constructor; [apply example_c2_ok|].
    constructor; [apply example_c1_ok|constructor]. }
  split; [apply perm_skip, perm_swap|].
  eexists _, _, _, _. split; [reflexivity|]. split; [reflexivity|].
  split; [reflexivity|]. split; [reflexivity|].
  intros [_ Hpeek]. specialize (Hpeek "r" "avgr"). vm_compute in Hpeek.
  discriminate Hpeek.
Defined.

(** A contribution into the empty atlas, by C4. *)
Lemma consolidate_into_empty_witness :
  NoDup (dict_keys Example.contribution) /\
  exists A,
    consolidate Example.contribution [] Example.store = Ok (A, Example.store) /\
    dict_keys A = ["r1"; "r2"] /\
    forall roi rec, dict_get roi Example.contribution = Some rec ->
      exists rec', dict_get roi A = Some rec' /\
                   dom rec' = six_fields /\
                   forall f, f ∈ six_fields -> rec' !! f = rec !! f.
Proof.
  assert (Hnd : NoDup (dict_keys Example.contribution))
    by (repeat constructor; not_in_list).
  split; [exact Hnd|].
  apply (consolidate_into_empty (exact := Z_exact)
           Example.contribution Example.store Hnd).
  repeat constructor; simpl; intros f Hf; exact Hf.
Defined.

(** A contribution with arrays of its own consolidated twice, by C5 for
    distinct arrays. *)
Lemma consolidate_twice_doubles_witness :
  dict_ok 1 Example.store12 Example.c1 /\
  NoDup (dict_locs Example.c1) /\
  exists A1 h1 A2 h2,
    consolidate Example.c1 [] Example.store12 = Ok (A1, h1) /\
    consolidate Example.c1 A1 h1 = Ok (A2, h2) /\
    (forall roi, dict_mem roi A2 = dict_mem roi Example.c1) /\
    (forall roi f, peek h2 A2 roi f
                   = content_double <$> peek Example.store12 Example.c1 roi f).
Proof.
  assert (Hnd : NoDup (dict_locs Example.c1))
    by (apply (bool_decide_unpack _); vm_compute; exact I).
  split; [apply example_c1_ok|]. split; [exact Hnd|].
  apply (consolidate_twice_doubles (exact := Z_exact) 1 Example.c1
           Example.store12 example_c1_ok Hnd).
Defined.

(** C5 as stated fails when two fields of the contribution are one array:
    the second consolidation doubles that array once per field. *)
Lemma consolidate_twice_shared_arrays :
  dict_ok 1 Example.store_shared Example.c_shared /\
  exists A1 h1 A2 h2,
    consolidate Example.c_shared [] Example.store_shared = Ok (A1, h1) /\
    consolidate Example.c_shared A1 h1 = Ok (A2, h2) /\
    peek Example.store_shared Example.c_shared "r" "avgr" = Some (CVec [1%Z]) /\
    peek h2 A2 "r" "avgr" = Some (CVec [4%Z]) /\
    peek h2 A2 "r" "avgr"
    <> content_double <$> peek Example.store_shared Example.c_shared "r" "avgr".
Proof.
  split; [apply example_c_shared_ok|].
  eexists _, _, _, _. split; [reflexivity|]. split; [reflexivity|].
  split; [reflexivity|]. split; [reflexivity|].
  vm_compute. discriminate.
Defined.

(** ** Concrete runs of the further properties *)

Lemma example_brain_voxels (roi : string) :
  roi ∈ Example.rois ->
  length (brain_transform Example.world_ok (cfg_mask Example.cfg) roi)
  = cfg_brain_size Example.cfg.
Proof. intros _. simpl. unfold Example.transform_brain. by case_decide. Defined.

Lemma example_chunk_voxels (chunk : nat) (roi : string) :
  roi ∈ Example.rois ->
  length (chunk_transform Example.world_ok (cfg_chunk_idx Example.cfg) chunk roi)
  = cfg_chunk_size Example.cfg.
Proof.
  intros _. simpl. unfold Example.transform_chunk. by repeat case_decide.
Defined.

Lemma example_chunk_weights_wf : wf2 Example.chunk_weights.
Proof. split; [reflexivity|repeat constructor]. Defined.

(** The numerators and network weights of the example, by X9. *)
Lemma compute_numerator_weighted_sums_witness :
  exists norm_chunk_masks std_chunk_masks,
    compute_chunk_masks (exact := Z_exact) Example.chunk_weights
      Example.norm_weight Example.std_weight
    = Ok (norm_chunk_masks, std_chunk_masks) /\
    length (compute_numerator norm_chunk_masks) = 2 /\
    length (compute_network_weights std_chunk_masks) = 2 /\
    forall i, i < 2 ->
      item (compute_numerator norm_chunk_masks) i
      = sum_below 4 (fun j =>
          item2 Example.chunk_weights i j * item Example.norm_weight j)%num /\
      item (compute_network_weights std_chunk_masks) i
      = sum_below 4 (fun j =>
          item2 Example.chunk_weights i j * item Example.std_weight j)%num.
Proof.
  eexists _, _. split; [reflexivity|].
  exact (compute_numerator_weighted_sums (exact := Z_exact)
           Example.chunk_weights Example.norm_weight Example.std_weight _ _
           example_chunk_weights_wf eq_refl eq_refl eq_refl).
Defined.

(** The arrays of the atlas after a second contribution, by X13. *)
Lemma consolidate_in_place_witness :
  exists A' h',
    consolidate Example.c2 Example.c1 Example.store12 = Ok (A', h') /\
    exists arec',
      dict_get "r" A' = Some arec' /\
      dom arec' = dom (mk_record (exact := Z_exact) 0 1 2 1%Z 1%Z 1%Z) /\
      forall f l, mk_record (exact := Z_exact) 0 1 2 1%Z 1%Z 1%Z !! f = Some (VArr l) ->
                  arec' !! f = Some (VArr l).
Proof.
  eexists _, _. split; [reflexivity|].
  exact (consolidate_in_place (exact := Z_exact) Example.c2 Example.c1
           Example.store12 _ _ "r" (mk_record (exact := Z_exact) 0 1 2 1%Z 1%Z 1%Z) eq_refl eq_refl).
Defined.

(** The contribution that was consolidated had its six fields, by X14. *)
Lemma consolidate_complete_records_witness :
  exists crec, dict_get "r" Example.c2 = Some crec /\ six_fields ⊆ dom crec.
Proof.
  apply (consolidate_complete_records (exact := Z_exact) Example.c2
           Example.c1 Example.store12 _ _ "r" eq_refl).
  by left.
Defined.

(** A record without its [fz] into the empty atlas, by X15. *)
Lemma consolidate_key_error_witness :
  consolidate Example.c_partial [] Example.store12 = Err (KeyError "fz") /\
  exists roi crec f,
    dict_get roi Example.c_partial = Some crec /\ f ∈ field_names /\
    crec !! f = None /\ KeyError "fz" = KeyError f.
Proof.
  split; [reflexivity|].
  apply (consolidate_key_error (exact := Z_exact) Example.c_partial
           Example.store12 (KeyError "fz")); [|reflexivity].
  repeat constructor; not_in_list.
Defined.

Lemma example_c2_mixed_ok : dict_ok 2 Example.store_mixed Example.c2.
Proof.
  split; [repeat constructor; not_in_list|].
  constructor; [|constructor].
  apply mk_record_ok; eexists; split; reflexivity.
Defined.

Lemma example_c1_mixed_ok : dict_ok 1 Example.store_mixed Example.c1.
Proof.
  split; [repeat constructor; not_in_list|].
  constructor; [|constructor].
  apply mk_record_ok; eexists; split; reflexivity.
Defined.

(** Arrays of two entries onto arrays of one, by X16. *)
Lemma consolidate_length_mismatch_witness :
  consolidate Example.c2 Example.c1 Example.store_mixed = Err ValueError.
Proof.
  apply (consolidate_length_mismatch (exact := Z_exact) 1 2 Example.c2
           Example.c1 Example.store_mixed "r"
           example_c1_mixed_ok example_c2_mixed_ok); try done; by eexists.
Defined.

(** The first of two contributions after both are consolidated, by X17. *)
Lemma consolidate_overwrites_first_witness :
  exists A1 A2 h2,
    consolidate Example.c1 [] Example.store12 = Ok (A1, Example.store12) /\
    consolidate Example.c2 A1 Example.store12 = Ok (A2, h2) /\
    (forall roi f, is_Some (dict_get roi Example.c1) ->
       f ∈ ["avgr"; "fz"; "t"] ->
       peek h2 Example.c1 roi f
       = opt_add (peek Example.store12 Example.c1 roi f)
                 (peek Example.store12 Example.c2 roi f)) /\
    (forall roi f, f ∈ ["network_weight"; "numerator"; "denominator"] ->
       peek h2 Example.c1 roi f = peek Example.store12 Example.c1 roi f) /\
    (forall roi f,
       peek h2 Example.c2 roi f = peek Example.store12 Example.c2 roi f).
Proof.
  apply (consolidate_overwrites_first (exact := Z_exact) 1 Example.c1
           Example.c2 Example.store12 example_c1_ok example_c2_ok).
  apply (bool_decide_unpack _); vm_compute; exact I.
Defined.

(** A second contribution added to the atlas of the first, by X18. *)
Lemma consolidate_sums_witness :
  exists A' h',
    consolidate Example.c2 Example.c1 Example.store12 = Ok (A', h') /\
    dict_ok 1 h' A' /\
    (forall roi, is_Some (dict_get roi A')
                 <-> is_Some (dict_get roi Example.c1)
                     \/ is_Some (dict_get roi Example.c2)) /\
    (forall roi f,
       peek h' A' roi f
       = opt_add (peek Example.store12 Example.c1 roi f)
                 (peek Example.store12 Example.c2 roi f)) /\
    (forall l, l ∉ dict_locs Example.c1 -> h' !! l = Example.store12 !! l).
Proof.
  apply (consolidate_sums (exact := Z_exact) 1 Example.c2 Example.c1
           Example.store12 example_c1_ok example_c2_ok).
  apply (bool_decide_unpack _); vm_compute; exact I.
Defined.

(** An atlas of two ROIs and a contribution with one of them and a new
    one, by X12: the new ROI comes last, and the ROI the contribution does
    not have keeps its record. *)
Lemma consolidate_keys_witness :
  NoDup (dict_keys Example.c_rs) /\
  exists A' h',
    consolidate Example.c_rs Example.atlas_qr Example.store_qrs = Ok (A', h') /\
    dict_keys A' = ["q"; "r"; "s"] /\
    dict_get "q" A' = Some (mk_record (exact := Z_exact) 0 1 2 1%Z 1%Z 1%Z) /\
    ("q" ∉ dict_keys Example.c_rs) /\
    forall roi, roi ∉ dict_keys Example.c_rs ->
      dict_get roi A' = dict_get roi Example.atlas_qr.
Proof.
  assert (Hnd : NoDup (dict_keys Example.c_rs))
    by (repeat constructor; not_in_list).
  split; [exact Hnd|]. eexists _, _. split; [reflexivity|].
  destruct (consolidate_keys (exact := Z_exact) Example.c_rs Example.atlas_qr
              Example.store_qrs _ _ Hnd eq_refl) as [Hkeys Hframe].
  split; [exact Hkeys|]. split; [|split; [|exact Hframe]].
  - apply Hframe. not_in_list.
  - not_in_list.
Defined.

(** The example, with its files of the configured shape, by X1. *)
Lemma process_chunk_typing_error_witness :
  Example.rois <> [] /\
  np_load Example.world_ok "avgr_dir" 0 "AvgR" = Ok Example.chunk_data /\
  process_chunk Example.world_ok 0 Example.rois Example.cfg []
  = Err TypingError.
Proof.
  split; [done|]. split; [reflexivity|].
  apply (process_chunk_typing_error Example.world_ok 0 Example.rois
           Example.cfg Example.chunk_data []); try reflexivity.
  - done.
  - apply example_brain_voxels.
  - apply example_chunk_voxels.
Defined.

(** An AvgR file of shape (4, 4) for a brain of three voxels, by X7. *)
Lemma process_chunk_shape_error_witness :
  process_chunk Example.world_4x4 0 Example.rois Example.cfg []
  = Err (TypeError shape_message).
Proof.
  apply (process_chunk_shape_error Example.world_4x4 0 Example.rois
           Example.cfg (Array2 4 4 (replicate 4 (replicate 4 0%Z))) []);
    try reflexivity.
  - done.
  - apply example_brain_voxels.
  - apply (example_chunk_voxels 0).
  - discriminate.
Defined.

(** The AvgR file is missing, by X19. *)
Lemma process_chunk_load_error_witness :
  process_chunk Example.world_missing 0 Example.rois Example.cfg []
  = Err OSError.
Proof.
  apply (process_chunk_load_error Example.world_missing 0 Example.rois
           Example.cfg [] OSError); try reflexivity.
  - done.
  - apply example_brain_voxels.
  - apply (example_chunk_voxels 0).
Defined.
